(** * Analytics Review Assistant: the new-entity classifier of [main.py]

    A shallow embedding of the processing branch of [main.py] (the body run
    when a file is uploaded and "Process File" is pressed) together with the
    properties its specification states about it.

    Modelling choices, all taken from the source:
    - a pandas frame is a list of rows, each carrying its index label (pandas
      keeps the labels of the uploaded table through every boolean mask);
    - the text columns hold strings and the [Cost (USD)] column holds values
      of an arbitrary type [C]: the program copies costs and never reads them;
    - a parsed [Date] cell is a [datetime64[ns]] value, an integer count of
      nanoseconds since the epoch, or [NaT], here [None];
    - [pd.to_datetime(..., errors='coerce')] belongs to pandas, not to this
      program: it is a parameter, a function on whole columns (pandas may
      infer one format for the column) that returns one cell per input cell;
    - Python sets of strings are [gset string]; a second embedding, in which
      a set is the list of its elements in the order the hash seed of the
      process gives them, is kept beside it for the claim of determinism;
    - one step of lines 51 to 117 raises with cells as above: line 87, when
      no record is later than the cutoff ([apply] on a frame without rows
      returns a frame, which cannot be assigned to one column); the handler
      of line 174 then reports it. The failures of the export (a sheet
      beyond the limits of Excel) are not modelled: the export is taken to
      succeed. The widgets and the style sheets of the page are left out;
    - what the page shows ([st.error], [st.warning], [st.table],
      [st.download_button]) is the list of events a run emits. *)

From Stdlib Require Import ZArith Ascii String.
From stdpp Require Import base decidable option list sorting gmap sets strings.

Local Open Scope string_scope.
Local Open Scope Z_scope.
Local Open Scope list_scope.

(** ** Dates *)

(** [datetime64[ns]]: nanoseconds since 1970-01-01T00:00. *)
Abbreviation Timestamp := Z (only parsing).

(** [datetime.date], as the number of days since 1970-01-01. *)
Abbreviation date := Z (only parsing).

Definition ns_per_day : Z := 86400 * 1000000000.

(** [pd.to_datetime(report_end_date)]: midnight of that day. *)
Definition date_to_datetime (d : date) : Timestamp := d * ns_per_day.

(** Calendar day and time of day of a timestamp ([Timestamp.normalize] and
    what it discards). *)
Definition day_of (t : Timestamp) : date := t `div` ns_per_day.
Definition time_of_day (t : Timestamp) : Z := t `mod` ns_per_day.

(** Comparisons of a [Date] cell with a timestamp; any comparison with [NaT]
    is false. *)
Definition date_le (d : option Timestamp) (c : Timestamp) : bool :=
  match d with Some t => bool_decide (t ≤ c) | None => false end.
Definition date_gt (d : option Timestamp) (c : Timestamp) : bool :=
  match d with Some t => bool_decide (c < t) | None => false end.

(** The column parser [pd.to_datetime(col, errors='coerce')]. *)
Record DateParser := {
  to_datetime : list string → list (option Timestamp);
  to_datetime_length col : length (to_datetime col) = length col
}.

(** ** Frames *)

(** One row of the uploaded table, restricted to the required columns; [D] is
    the type of the [Date] cell (text before line 57, a timestamp after). *)
Record Row (D C : Type) := mkRow {
  Date : D;
  Channel : string;
  Media_Source : string;
  Campaign_Name : string;
  Campaign_Name_Short : string;
  Ad_Set : string;
  Ad_Name_Short : string;
  Cost_USD : C
}.
Arguments mkRow {D C}.
Arguments Date {D C}.
Arguments Channel {D C}.
Arguments Media_Source {D C}.
Arguments Campaign_Name {D C}.
Arguments Campaign_Name_Short {D C}.
Arguments Ad_Set {D C}.
Arguments Ad_Name_Short {D C}.
Arguments Cost_USD {D C}.

(** Rows with their index labels. *)
Abbreviation Frame D C := (list (nat * Row D C)).

(** The table as read from the upload: its header and its records; the index
    is the default [RangeIndex]. *)
Record DataFrame (C : Type) := mkDataFrame {
  columns : list string;
  records : list (Row string C)
}.
Arguments mkDataFrame {C}.
Arguments columns {C}.
Arguments records {C}.

Definition range_index {C} (df : DataFrame C) : Frame string C :=
  imap (λ i r, (i, r)) (records df).

(** [display_df]: the six selected columns and the three status columns. *)
Record DisplayRow (C : Type) := mkDisplayRow {
  d_Channel : string;
  d_Media_Source : string;
  d_Campaign_Name_Short : string;
  d_Ad_Set : string;
  d_Ad_Name_Short : string;
  d_Cost_USD : C;
  d_Campaign_Status : string;
  d_Ad_Set_Status : string;
  d_Ad_Status : string
}.
Arguments mkDisplayRow {C}.
Arguments d_Channel {C}.
Arguments d_Media_Source {C}.
Arguments d_Campaign_Name_Short {C}.
Arguments d_Ad_Set {C}.
Arguments d_Ad_Name_Short {C}.
Arguments d_Cost_USD {C}.
Arguments d_Campaign_Status {C}.
Arguments d_Ad_Set_Status {C}.
Arguments d_Ad_Status {C}.

(** [final_df]: columns renamed and put in the order of line 114. *)
Record FinalRow (C : Type) := mkFinalRow {
  f_Media_Source : string;
  f_Channel : string;
  f_Campaign_Status : string;
  f_Campaign_Short : string;
  f_Ad_Set_Status : string;
  f_Ad_Set : string;
  f_Ad_Status : string;
  f_Ad : string;
  f_Cost_USD : C
}.
Arguments mkFinalRow {C}.
Arguments f_Media_Source {C}.
Arguments f_Channel {C}.
Arguments f_Campaign_Status {C}.
Arguments f_Campaign_Short {C}.
Arguments f_Ad_Set_Status {C}.
Arguments f_Ad_Set {C}.
Arguments f_Ad_Status {C}.
Arguments f_Ad {C}.
Arguments f_Cost_USD {C}.

(** What a run shows on the page. *)
Inductive Event (C : Type) :=
  | st_error (msg : string)
  | st_warning (msg : string)
  | st_table (table : list (nat * FinalRow C))
  | st_download_button (sheet : list (FinalRow C)).
Arguments st_error {C}.
Arguments st_warning {C}.
Arguments st_table {C}.
Arguments st_download_button {C}.

(** ** The program *)

Section Classifier.
Context {C : Type}.

(** Line 52. *)
Definition required_columns : list string :=
  ["Date"; "Channel"; "Media Source"; "Campaign Name";
   "Campaign Name (Short)"; "Ad Set"; "Ad Name (Short)"; "Cost (USD)"].

(** Line 53: [all(col in df.columns for col in required_columns)]. *)
Definition has_required_columns (cols : list string) : bool :=
  forallb (λ col, bool_decide (col ∈ cols)) required_columns.

(** [', '.join(...)]. *)
Fixpoint join (sep : string) (l : list string) : string :=
  match l with
  | [] => ""
  | [s] => s
  | s :: l' => s +:+ sep +:+ join sep l'
  end.

(** Line 54, the text given to [st.error]. *)
Definition schema_error_message : string :=
  "Uploaded file must contain the following columns: "
    +:+ join ", " required_columns.

Definition date_warning_message : string :=
  "Some dates could not be parsed and will be ignored.".

(** Line 57: the [Date] column is replaced by its parse. *)
Definition set_Date {D D'} (d : D') (r : Row D C) : Row D' C :=
  mkRow d (Channel r) (Media_Source r) (Campaign_Name r)
        (Campaign_Name_Short r) (Ad_Set r) (Ad_Name_Short r) (Cost_USD r).

Definition parse_dates (P : DateParser) (df : Frame string C)
  : Frame (option Timestamp) C :=
  zip_with (λ ir d, (ir.1, set_Date d ir.2)) df
           (to_datetime P ((λ ir, Date ir.2) <$> df)).

(** Line 60: [df['Date'].isnull().any()]. *)
Definition isnull_any (df : Frame (option Timestamp) C) : bool :=
  existsb (λ ir, bool_decide (Date ir.2 = None)) df.

(** Line 62: [df.dropna(subset=['Date'])]. *)
Definition dropna (df : Frame (option Timestamp) C)
  : Frame (option Timestamp) C :=
  filter (λ ir, is_Some (Date ir.2)) df.

(** Lines 65 and 66. *)
Definition before_df (report_end_date : date)
    (df : Frame (option Timestamp) C) : Frame (option Timestamp) C :=
  filter (λ ir, date_le (Date ir.2) (date_to_datetime report_end_date)) df.
Definition after_df (report_end_date : date)
    (df : Frame (option Timestamp) C) : Frame (option Timestamp) C :=
  filter (λ ir, date_gt (Date ir.2) (date_to_datetime report_end_date)) df.

(** The three keys: lines 69/74/88, 70/75/91 and 71/76/94. *)
Definition campaign_key {D} (r : Row D C) : string :=
  Channel r +:+ "_" +:+ Campaign_Name_Short r.
Definition ad_set_key {D} (r : Row D C) : string := Ad_Set r.
Definition ad_key {D} (r : Row D C) : string := Ad_Name_Short r.

(** Lines 69 to 76: [set(...)] of a key column. *)
Definition key_set {D} (key : Row D C → string) (df : Frame D C)
  : gset string :=
  list_to_set ((λ ir, key ir.2) <$> df).

(** Lines 79 to 81. *)
Record NewSets := mkNewSets {
  new_campaigns : gset string;
  new_adsets : gset string;
  new_ads : gset string
}.

Definition new_sets {D} (before after : Frame D C) : NewSets :=
  {| new_campaigns := key_set campaign_key after ∖ key_set campaign_key before;
     new_adsets := key_set ad_set_key after ∖ key_set ad_set_key before;
     new_ads := key_set ad_key after ∖ key_set ad_key before |}.

(** The lambdas of lines 88, 92 and 95. *)
Definition status (key : string) (new : gset string) : string :=
  if decide (key ∈ new) then "New" else "Existing".

(** Lines 84 to 96. *)
Definition display_row {D} (new : NewSets) (r : Row D C) : DisplayRow C :=
  {| d_Channel := Channel r;
     d_Media_Source := Media_Source r;
     d_Campaign_Name_Short := Campaign_Name_Short r;
     d_Ad_Set := Ad_Set r;
     d_Ad_Name_Short := Ad_Name_Short r;
     d_Cost_USD := Cost_USD r;
     d_Campaign_Status :=
       status (Channel r +:+ "_" +:+ Campaign_Name_Short r) (new_campaigns new);
     d_Ad_Set_Status := status (Ad_Set r) (new_adsets new);
     d_Ad_Status := status (Ad_Name_Short r) (new_ads new) |}.

Definition display_df {D} (new : NewSets) (after : Frame D C)
  : list (nat * DisplayRow C) :=
  (λ ir, (ir.1, display_row new ir.2)) <$> after.

(** Lines 99 to 101. *)
Definition any_new (d : DisplayRow C) : bool :=
  String.eqb (d_Campaign_Status d) "New"
  || String.eqb (d_Ad_Set_Status d) "New"
  || String.eqb (d_Ad_Status d) "New".

(** Lines 104 to 114. *)
Definition rename_reorder (d : DisplayRow C) : FinalRow C :=
  {| f_Media_Source := d_Media_Source d;
     f_Channel := d_Channel d;
     f_Campaign_Status := d_Campaign_Status d;
     f_Campaign_Short := d_Campaign_Name_Short d;
     f_Ad_Set_Status := d_Ad_Set_Status d;
     f_Ad_Set := d_Ad_Set d;
     f_Ad_Status := d_Ad_Status d;
     f_Ad := d_Ad_Name_Short d;
     f_Cost_USD := d_Cost_USD d |}.

Definition filtered_df (new : NewSets) (after : Frame (option Timestamp) C)
  : list (nat * FinalRow C) :=
  (λ id, (id.1, rename_reorder id.2))
    <$> filter (λ id, any_new id.2) (display_df new after).

(** Line 117: the subset of [drop_duplicates]. *)
Definition combination (f : FinalRow C) : string * string * string * string :=
  (f_Channel f, f_Campaign_Short f, f_Ad_Set f, f_Ad f).

(** [drop_duplicates(subset=...)], [keep='first']: a row stays when no row
    before it has its combination. *)
Fixpoint drop_duplicates_from (seen : gset (string * string * string * string))
    (df : list (nat * FinalRow C)) : list (nat * FinalRow C) :=
  match df with
  | [] => []
  | ir :: df' =>
      if decide (combination ir.2 ∈ seen) then drop_duplicates_from seen df'
      else ir :: drop_duplicates_from ({[combination ir.2]} ∪ seen) df'
  end.

Definition drop_duplicates := drop_duplicates_from ∅.

(** Lines 64 to 117 on the frame left by [dropna], for a run that gets past
    line 87. *)
Definition classify (report_end_date : date)
    (df : Frame (option Timestamp) C) : list (nat * FinalRow C) :=
  let before := before_df report_end_date df in
  let after := after_df report_end_date df in
  let new := new_sets before after in
  drop_duplicates (filtered_df new after).

(** Line 175, the text given to [st.error] for the exception [e]. *)
Definition processing_error_message (e : string) : string :=
  "An error occurred while processing the file: " +:+ e.

(** The [ValueError] of line 87 when [display_df] has no row: [apply] on a
    frame without rows returns a copy of the frame, not a column of
    statuses, and pandas refuses to put a frame of six columns in one
    column. The text is pandas'. *)
Definition empty_apply_error : string :=
  "Cannot set a DataFrame with multiple columns to the single column "
    +:+ "Campaign Status".

(** Lines 51 to 175. *)
Definition process (P : DateParser) (report_end_date : date)
    (df : DataFrame C) : list (Event C) :=
  if negb (has_required_columns (columns df)) then
    [st_error schema_error_message]
  else
    let df1 := parse_dates P (range_index df) in
    let warning :=
      if isnull_any df1 then [st_warning date_warning_message] else [] in
    let df2 := dropna df1 in
    match after_df report_end_date df2 with
    | [] => warning ++ [st_error (processing_error_message empty_apply_error)]
    | _ :: _ =>
        let final_df := classify report_end_date df2 in
        warning ++ [st_table final_df; st_download_button (final_df.*2)]
    end.

End Classifier.

(** ** The frames and sets of one run

    Names for the values the program binds on its way from the uploaded
    table to [final_df], as functions of the run's inputs. *)

Section Run.
Context {C : Type}.
Implicit Types (P : DateParser) (c : date) (df : DataFrame C).

(** [df] after line 57. *)
Definition parsed P df : Frame (option Timestamp) C :=
  parse_dates P (range_index df).

(** The parsed [Date] column. *)
Definition dates P df : list (option Timestamp) :=
  to_datetime P (Date <$> records df).

(** [before_df] and [after_df] of the run. *)
Definition historical P c df := before_df c (dropna (parsed P df)).
Definition recent P c df := after_df c (dropna (parsed P df)).

(** [new_campaigns], [new_adsets] and [new_ads] of the run. *)
Definition novelty P c df : NewSets :=
  new_sets (historical P c df) (recent P c df).

(** [display_df] with its status columns, and [final_df] before line 117. *)
Definition annotated P c df := display_df (novelty P c df) (recent P c df).
Definition retained P c df := filtered_df (novelty P c df) (recent P c df).

(** [final_df] as shown and exported. *)
Definition output P c df := classify c (dropna (parsed P df)).

(** The [st.warning] calls of a run. *)
Definition is_warning (e : Event C) : bool :=
  match e with st_warning _ => true | _ => false end.
Definition warnings (events : list (Event C)) : list (Event C) :=
  filter (λ e, is_warning e) events.

End Run.

(** Index labels that grow along the frame, as those of a [RangeIndex] and
    of every frame cut out of it by a mask. *)
Definition increasing {A} (l : list (nat * A)) : Prop :=
  StronglySorted lt (l.*1).

(** ** Notions the specification uses *)

(** [new] is the novelty set of the key [key]: the difference of the keys of
    the recent and of the historical partition, spelled out on members. *)
Definition novelty_set_of {D C} (key : Row D C → string) (new : gset string)
    (historical recent : Frame D C) : Prop :=
  new = key_set key recent ∖ key_set key historical
  ∧ (∀ k, k ∈ new ↔
          (∃ ir, ir ∈ recent ∧ key ir.2 = k)
          ∧ ¬ (∃ ir, ir ∈ historical ∧ key ir.2 = k))
  ∧ new ⊆ key_set key recent
  ∧ new ## key_set key historical.

(** The four key columns of a record. *)
Definition key_columns {D C} (r : Row D C) : string * string * string * string :=
  (Channel r, Campaign_Name_Short r, Ad_Set r, Ad_Name_Short r).

(** The three status cells of an annotated row and of an output row. *)
Definition display_statuses {C} (d : DisplayRow C) : string * string * string :=
  (d_Campaign_Status d, d_Ad_Set_Status d, d_Ad_Status d).
Definition statuses {C} (f : FinalRow C) : string * string * string :=
  (f_Campaign_Status f, f_Ad_Set_Status f, f_Ad_Status f).

(** The message [msg] names the column [col]. *)
Definition mentions (msg col : string) : bool :=
  bool_decide (is_Some (String.index 0 col msg)).

(** The required columns a header lacks. *)
Definition missing_columns (cols : list string) : list string :=
  filter (λ col, col ∉ cols) required_columns.

(** A table or a download among the events of a run. *)
Definition is_output {C} (e : Event C) : bool :=
  match e with st_table _ | st_download_button _ => true | _ => false end.

(** Everything of a record but its cost, and everything of an output row
    but its cost; the same for whole uploads and for events. *)
Definition row_but_cost {D C} (r : Row D C) : Row D unit :=
  mkRow (Date r) (Channel r) (Media_Source r) (Campaign_Name r)
        (Campaign_Name_Short r) (Ad_Set r) (Ad_Name_Short r) tt.

Definition upload_but_cost {C} (df : DataFrame C) : DataFrame unit :=
  mkDataFrame (columns df) (row_but_cost <$> records df).

Definition final_but_cost {C} (f : FinalRow C) : FinalRow unit :=
  mkFinalRow (f_Media_Source f) (f_Channel f) (f_Campaign_Status f)
             (f_Campaign_Short f) (f_Ad_Set_Status f) (f_Ad_Set f)
             (f_Ad_Status f) (f_Ad f) tt.

Definition event_but_cost {C} (e : Event C) : Event unit :=
  match e with
  | st_error msg => st_error msg
  | st_warning msg => st_warning msg
  | st_table table => st_table ((λ x, (x.1, final_but_cost x.2)) <$> table)
  | st_download_button sheet => st_download_button (final_but_cost <$> sheet)
  end.

(** The claim of a date-only boundary: a parsed record is historical when
    its calendar day is at most the cutoff and recent when its day is later,
    whatever its time of day. *)
Definition date_only_partition {C} (P : DateParser) (c : date)
    (df : DataFrame C) : Prop :=
  ∀ i t, dates P df !! i = Some (Some t) →
    (i ∈ (historical P c df).*1 ↔ day_of t ≤ c)
    ∧ (i ∈ (recent P c df).*1 ↔ c < day_of t).

(** The claim that the error of line 54 lists the missing columns: it names
    a required column exactly when the header lacks it. *)
Definition lists_the_missing_columns (msg : string) (cols : list string) : Prop :=
  ∀ col, col ∈ required_columns → (mentions msg col ↔ col ∉ cols).

(** ** Tactics *)

(** Membership in a list of events given by its elements. *)
Ltac inv_events H :=
  simpl in H;
  repeat (apply elem_of_cons in H as [H|H]; [try discriminate H|]);
  try (by apply not_elem_of_nil in H);
  simplify_eq.

(** Membership in a list that evaluates to a literal. *)
Ltac in_list :=
  vm_compute; repeat first [apply list_elem_of_here | apply list_elem_of_further].

(** ** A date parser to run the program on sample tables

    [pd.to_datetime] is kept abstract above. To evaluate the program on
    concrete uploads the examples below use this instance: it reads ISO 8601
    cells, [YYYY-MM-DD] or [YYYY-MM-DD HH:MM:SS], cell by cell, and coerces
    anything else to [NaT]. *)

Module Iso.

Definition digit (a : ascii) : option Z :=
  let n := Z.of_N (N_of_ascii a) in
  if bool_decide (48 ≤ n ≤ 57) then Some (n - 48) else None.

Fixpoint number (acc : Z) (s : string) : option Z :=
  match s with
  | EmptyString => Some acc
  | String a s' => d ← digit a; number (10 * acc + d) s'
  end.

Definition field (pos len : nat) (s : string) : option Z :=
  let f := substring pos len s in
  if bool_decide (String.length f = len) then number 0 f else None.

Definition is_leap (y : Z) : bool :=
  bool_decide (y `mod` 4 = 0) &&
  (negb (bool_decide (y `mod` 100 = 0)) || bool_decide (y `mod` 400 = 0)).

Definition days_in_month (y m : Z) : Z :=
  if bool_decide (m = 2) then (if is_leap y then 29 else 28)
  else if bool_decide (m ∈ [4; 6; 9; 11]) then 30 else 31.

(** Days from 1970-01-01 to the civil date [y]-[m]-[d]. *)
Definition days_from_civil (y m d : Z) : Z :=
  let y' := if bool_decide (m ≤ 2) then y - 1 else y in
  let era := y' `div` 400 in
  let yoe := y' - era * 400 in
  let doy := (153 * (if bool_decide (2 < m) then m - 3 else m + 9) + 2) `div` 5
             + d - 1 in
  let doe := yoe * 365 + yoe `div` 4 - yoe `div` 100 + doy in
  era * 146097 + doe - 719468.

Definition parse_date (s : string) : option Z :=
  y ← field 0 4 s; m ← field 5 2 s; d ← field 8 2 s;
  if bool_decide (substring 4 1 s = "-" ∧ substring 7 1 s = "-"
                  ∧ 1 ≤ m ≤ 12 ∧ 1 ≤ d ≤ days_in_month y m)
  then Some (days_from_civil y m d) else None.

Definition parse_time (s : string) : option Z :=
  h ← field 11 2 s; m ← field 14 2 s; sec ← field 17 2 s;
  if bool_decide (substring 10 1 s = " " ∧ substring 13 1 s = ":"
                  ∧ substring 16 1 s = ":" ∧ h < 24 ∧ m < 60 ∧ sec < 60)
  then Some (((h * 60 + m) * 60 + sec) * 1000000000) else None.

Definition parse (s : string) : option Timestamp :=
  if bool_decide (String.length s = 10%nat) then
    d ← parse_date s; Some (date_to_datetime d)
  else if bool_decide (String.length s = 19%nat) then
    d ← parse_date s; t ← parse_time s; Some (date_to_datetime d + t)
  else None.

Definition parser : DateParser :=
  {| to_datetime := fmap parse; to_datetime_length := length_fmap parse |}.

(** A parser that works on the column as a whole: the first cell fixes
    the layout, with or without a time, and cells of the other layout are
    coerced to [NaT]. *)
Definition parse_uniform (col : list string) : list (option Timestamp) :=
  match col with
  | [] => []
  | s :: _ =>
      (λ x, if bool_decide (String.length x = String.length s) then parse x
            else None) <$> col
  end.

Definition uniform_parser : DateParser.
Proof.
  refine {| to_datetime := parse_uniform |}.
  intros [|s col]; [done|]. unfold parse_uniform. apply length_fmap.
Defined.

(** A cutoff written as a civil date. *)
Definition ymd (y m d : Z) : date := days_from_civil y m d.

End Iso.

(** ** Sample uploads *)

Module Sample.

Definition row (d channel campaign ad_set ad : string) (cost : Z)
  : Row string Z :=
  mkRow d channel "Paid Social" (campaign +:+ " (long)") campaign ad_set ad cost.

(** Seven records around the cutoff 2024-01-15, one of them with a date
    that does not parse and one stamped on the cutoff day at 10:30. *)
Definition upload : DataFrame Z :=
  mkDataFrame required_columns
    [ row "2024-01-10" "Facebook" "SummerSale" "Aud1" "AdA" 10;
      row "2024-01-15" "Facebook" "Winter" "Aud2" "AdB" 20;
      row "2024-01-16" "Facebook" "SummerSale" "Aud1" "AdA" 30;
      row "2024-01-16" "Facebook" "Spring" "Aud1" "AdA" 40;
      row "soon" "Facebook" "Other" "Aud9" "AdZ" 45;
      row "2024-01-17" "Facebook" "Spring" "Aud1" "AdA" 50;
      row "2024-01-15 10:30:00" "Google" "G1" "Aud2" "AdB" 60 ].

Definition cutoff : date := Iso.ymd 2024 1 15.

(** What the program shows for [upload] and [cutoff]: the first [Spring]
    record, new by its campaign, and the record of 10:30. *)
Definition table : list (nat * FinalRow Z) :=
  [ (3%nat, mkFinalRow "Paid Social" "Facebook" "New" "Spring"
                       "Existing" "Aud1" "Existing" "AdA" 40);
    (6%nat, mkFinalRow "Paid Social" "Google" "New" "G1"
                       "Existing" "Aud2" "Existing" "AdB" 60) ].

(** The same upload with every cost changed. *)
Definition upload_other_costs : DataFrame Z :=
  mkDataFrame required_columns
    ((λ r, mkRow (Date r) (Channel r) (Media_Source r) (Campaign_Name r)
                 (Campaign_Name_Short r) (Ad_Set r) (Ad_Name_Short r)
                 (Cost_USD r * 7 + 1)) <$> records upload).

(** The same upload with other text in the record whose date does not
    parse. *)
Definition upload_other_bad_row : DataFrame Z :=
  mkDataFrame required_columns
    (<[4%nat := row "soon" "TikTok" "Spring" "Aud1" "AdA" 99]> (records upload)).

(** An upload without unparseable dates. *)
Definition clean_upload : DataFrame Z :=
  mkDataFrame required_columns
    [ row "2024-01-10" "Facebook" "SummerSale" "Aud1" "AdA" 10;
      row "2024-01-16" "Facebook" "Spring" "Aud1" "AdA" 40 ].

(** An upload whose header lacks only the [Date] column. *)
Definition upload_without_date : DataFrame Z :=
  mkDataFrame
    ["Channel"; "Media Source"; "Campaign Name"; "Campaign Name (Short)";
     "Ad Set"; "Ad Name (Short)"; "Cost (USD)"]
    (records upload).

End Sample.

(** ** Styling and export: lines 119 to 172 *)

(** A cell of [final_df]: text, or a cost. *)
Inductive Value (C : Type) :=
  | Text (s : string)
  | Number (cost : C).
Arguments Text {C}.
Arguments Number {C}.

(** Line 114: the columns of [final_df], in their order. *)
Definition final_columns : list string :=
  ["Media Source"; "Channel"; "Campaign Status"; "Campaign (Short)";
   "Ad Set Status"; "Ad Set"; "Ad Status"; "Ad"; "Cost (USD)"].

(** The cells of a row of [final_df], in the order of its columns. *)
Definition cells {C} (f : FinalRow C) : list (Value C) :=
  [Text (f_Media_Source f); Text (f_Channel f); Text (f_Campaign_Status f);
   Text (f_Campaign_Short f); Text (f_Ad_Set_Status f); Text (f_Ad_Set f);
   Text (f_Ad_Status f); Text (f_Ad f); Number (f_Cost_USD f)].

(** Lines 120 to 124: [val == "New"] is false of anything but that text. *)
Definition color_status {C} (val : Value C) : string :=
  match val with
  | Text s =>
      if String.eqb s "New" then "background-color: #2e8b57; color: white"
      else "background-color: #808080; color: white"
  | Number _ => "background-color: #808080; color: white"
  end.

(** Line 127: the [subset] of [applymap]. *)
Definition status_columns : list string :=
  ["Campaign Status"; "Ad Set Status"; "Ad Status"].

(** [df.style.applymap(func, subset=...)]: every cell with its style, if it
    has one. *)
Definition applymap {C} (func : Value C → string) (subset : list string)
    (df : list (nat * FinalRow C))
  : list (nat * list (Value C * option string)) :=
  (λ x, (x.1, zip_with
                (λ col v, (v, if decide (col ∈ subset) then Some (func v)
                              else None))
                final_columns (cells x.2))) <$> df.

(** Line 127. *)
Definition styled_df {C} (final_df : list (nat * FinalRow C)) :=
  applymap color_status status_columns final_df.

(** Lines 150 and 151: the two formats of the workbook. *)
Record Format := mkFormat {
  bg_color : string;
  font_color : string
}.

Definition new_format : Format := mkFormat "#2e8b57" "white".
Definition existing_format : Format := mkFormat "#808080" "white".

(** A cell of the worksheet: its value, and the format given to it by a
    [worksheet.write] of this program, if any ([None] for a cell as
    [to_excel] wrote it). *)
Record Cell (C : Type) := mkCell {
  cell_value : Value C;
  cell_format : option Format
}.
Arguments mkCell {C}.
Arguments cell_value {C}.
Arguments cell_format {C}.

(** A worksheet: its cells by row and column, both counted from zero. *)
Abbreviation Worksheet C := (gmap (nat * nat) (Cell C)).

Section Workbook.
Context {C : Type}.

(** [worksheet.write(row, col, value, format)]: the cell is replaced. *)
Definition write (row col : nat) (v : Value C) (fmt : option Format)
    (ws : Worksheet C) : Worksheet C :=
  <[(row, col) := mkCell v fmt]> ws.

(** One row of cells, from column [col] on. *)
Fixpoint write_row (row col : nat) (vals : list (Value C))
    (ws : Worksheet C) : Worksheet C :=
  match vals with
  | [] => ws
  | v :: vals' => write_row row (S col) vals' (write row col v None ws)
  end.

(** Rows of cells, from row [row] on. *)
Fixpoint write_rows (row : nat) (rows : list (list (Value C)))
    (ws : Worksheet C) : Worksheet C :=
  match rows with
  | [] => ws
  | vals :: rows' => write_rows (S row) rows' (write_row row 0 vals ws)
  end.

(** Line 145, [final_df.to_excel(writer, index=False, ...)]: the header in
    row 0, the rows of the frame below it, the index labels left out. *)
Definition to_excel (final_df : list (nat * FinalRow C)) : Worksheet C :=
  write_rows 0 ((Text <$> final_columns) :: (cells <$> final_df.*2)) ∅.

(** [enumerate(values, start=...)]. *)
Definition enumerate {A} (start : nat) (values : list A) : list (nat * A) :=
  imap (λ i v, ((start + i)%nat, v)) values.

(** Lines 155, 158 and 161. *)
Definition format_to_apply (value : string) : Format :=
  if String.eqb value "New" then new_format else existing_format.

(** One of the loops of lines 154 to 162, on column [col]. *)
Definition highlight (col : nat) (values : list string)
    (ws : Worksheet C) : Worksheet C :=
  foldl (λ ws rv, write rv.1 col (Text rv.2) (Some (format_to_apply rv.2)) ws)
        ws (enumerate 1 values).

(** Lines 144 to 162: the sheets of the workbook when the writer closes, or
    [None] when line 147 finds no sheet of that name. The sheet is taken
    to fit: [to_excel] raises for a frame of more than 1,048,576 rows, and
    xlsxwriter leaves out a cell of empty text written without a format;
    neither is modelled. *)
Definition export (final_df : list (nat * FinalRow C))
  : option (gmap string (Worksheet C)) :=
  let sheets : gmap string (Worksheet C) :=
    {[ "New Entities" := to_excel final_df ]} in
  worksheet ← sheets !! "New Entities";
  let worksheet :=
    highlight 2 (f_Campaign_Status <$> final_df.*2) worksheet in
  let worksheet :=
    highlight 4 (f_Ad_Set_Status <$> final_df.*2) worksheet in
  let worksheet :=
    highlight 6 (f_Ad_Status <$> final_df.*2) worksheet in
  Some (<["New Entities" := worksheet]> sheets).

End Workbook.

(** The worksheet the download holds. *)
Definition exported_sheet {C} (final_df : list (nat * FinalRow C))
  : Worksheet C :=
  default ∅ (export final_df ≫= (.!! "New Entities")).

(** The format the loops of lines 154 to 162 give to a cell of a status
    column, from its value. *)
Definition format_of_value {C} (v : Value C) : Format :=
  match v with
  | Text s => format_to_apply s
  | Number _ => existing_format
  end.

(** The style sheet text of a format, as line 122 and line 124 write it. *)
Definition css_of_format (fmt : Format) : string :=
  "background-color: " +:+ bg_color fmt +:+ "; color: " +:+ font_color fmt.

(** Some record of the upload with a parsed date on or before the cutoff
    has the key [k]. *)
Definition seen_before {C} (P : DateParser) (c : date) (df : DataFrame C)
    (key : Row string C → string) (k : string) : Prop :=
  ∃ j h t, records df !! j = Some h ∧ dates P df !! j = Some (Some t)
           ∧ t ≤ date_to_datetime c ∧ key h = k.

(** ** More sample uploads *)

Module MoreSamples.

(** A campaign of channel [Meta] named [Ads_Promo] before the cutoff, and a
    campaign of channel [Meta_Ads] named [Promo] after it. *)
Definition colliding_upload : DataFrame Z :=
  mkDataFrame required_columns
    [ Sample.row "2024-01-10" "Meta" "Ads_Promo" "Aud1" "AdA" 10;
      Sample.row "2024-01-16" "Meta_Ads" "Promo" "Aud7" "AdQ" 40 ].

(** A cutoff before every record of [Sample.clean_upload]. *)
Definition early_cutoff : date := Iso.ymd 2024 1 1.

(** A cutoff later than [Sample.cutoff]. *)
Definition later_cutoff : date := Iso.ymd 2024 1 16.

End MoreSamples.

(** ** Invocations: the hash seed and the clock

    Two things change from one invocation of the script to the next while
    the upload and the cutoff stay the same. The hash seed of the Python
    process fixes the order in which a set of strings holds its elements.
    The clock is what [pd.to_datetime] resolves a relative word against:
    line 27 asks it for ["today"], and a [Date] cell may hold the same word.
    The embedding below follows lines 51 to 175 once more with both made
    explicit: a set is the list of its elements in the order of the seed,
    and the parser is the one of the time of the invocation. *)

(** The order a hash seed gives to the elements of a collection of
    strings: each element once. *)
Record HashSeed := mkHashSeed {
  layout : list string → list string;
  layout_NoDup xs : NoDup (layout xs);
  layout_elem_of xs x : x ∈ layout xs ↔ x ∈ xs
}.

(** [Series.unique()]: the values in the order of their first appearance. *)
Fixpoint unique_from (seen xs : list string) : list string :=
  match xs with
  | [] => []
  | x :: xs' =>
      if decide (x ∈ seen) then unique_from seen xs'
      else x :: unique_from (x :: seen) xs'
  end.

Definition unique : list string → list string := unique_from [].

(** [new_campaigns], [new_adsets] and [new_ads] as Python holds them. *)
Record SeededNewSets := mkSeededNewSets {
  seeded_new_campaigns : list string;
  seeded_new_adsets : list string;
  seeded_new_ads : list string
}.

Section Seeded.
Context {C : Type}.
Variable H : HashSeed.

(** [set(xs)], [a - b] and [x in s]. *)
Definition py_set (xs : list string) : list string := layout H xs.
Definition py_difference (a b : list string) : list string :=
  layout H (filter (λ x, x ∉ b) a).
Definition py_in (x : string) (s : list string) : bool :=
  bool_decide (x ∈ s).

(** Lines 69 to 81. *)
Definition seeded_new_sets {D} (before after : Frame D C) : SeededNewSets :=
  let existing_campaigns :=
    py_set ((λ ir, Channel ir.2 +:+ "_" +:+ Campaign_Name_Short ir.2)
              <$> before) in
  let existing_adsets := py_set (unique ((λ ir, Ad_Set ir.2) <$> before)) in
  let existing_ads :=
    py_set (unique ((λ ir, Ad_Name_Short ir.2) <$> before)) in
  let after_campaigns :=
    py_set ((λ ir, Channel ir.2 +:+ "_" +:+ Campaign_Name_Short ir.2)
              <$> after) in
  let after_adsets := py_set (unique ((λ ir, Ad_Set ir.2) <$> after)) in
  let after_ads := py_set (unique ((λ ir, Ad_Name_Short ir.2) <$> after)) in
  {| seeded_new_campaigns := py_difference after_campaigns existing_campaigns;
     seeded_new_adsets := py_difference after_adsets existing_adsets;
     seeded_new_ads := py_difference after_ads existing_ads |}.

(** The lambdas of lines 88, 92 and 95. *)
Definition seeded_status (key : string) (new : list string) : string :=
  if py_in key new then "New" else "Existing".

(** Lines 84 to 96. *)
Definition seeded_display_row {D} (new : SeededNewSets) (r : Row D C)
  : DisplayRow C :=
  {| d_Channel := Channel r;
     d_Media_Source := Media_Source r;
     d_Campaign_Name_Short := Campaign_Name_Short r;
     d_Ad_Set := Ad_Set r;
     d_Ad_Name_Short := Ad_Name_Short r;
     d_Cost_USD := Cost_USD r;
     d_Campaign_Status :=
       seeded_status (Channel r +:+ "_" +:+ Campaign_Name_Short r)
                     (seeded_new_campaigns new);
     d_Ad_Set_Status := seeded_status (Ad_Set r) (seeded_new_adsets new);
     d_Ad_Status := seeded_status (Ad_Name_Short r) (seeded_new_ads new) |}.

(** Lines 64 to 117. *)
Definition seeded_classify (report_end_date : date)
    (df : Frame (option Timestamp) C) : list (nat * FinalRow C) :=
  let before := before_df report_end_date df in
  let after := after_df report_end_date df in
  let new := seeded_new_sets before after in
  let display := (λ ir, (ir.1, seeded_display_row new ir.2)) <$> after in
  drop_duplicates
    ((λ id, (id.1, rename_reorder id.2))
       <$> filter (λ id, any_new id.2) display).

(** Lines 51 to 175. *)
Definition seeded_process (P : DateParser) (report_end_date : date)
    (df : DataFrame C) : list (Event C) :=
  if negb (has_required_columns (columns df)) then
    [st_error schema_error_message]
  else
    let df1 := parse_dates P (range_index df) in
    let warning :=
      if isnull_any df1 then [st_warning date_warning_message] else [] in
    let df2 := dropna df1 in
    match after_df report_end_date df2 with
    | [] => warning ++ [st_error (processing_error_message empty_apply_error)]
    | _ :: _ =>
        let final_df := seeded_classify report_end_date df2 in
        warning ++ [st_table final_df; st_download_button (final_df.*2)]
    end.

End Seeded.

(** What one invocation has of its own: the hash seed of its process and
    the time at which it runs. *)
Record Invocation := mkInvocation {
  seed : HashSeed;
  now : Timestamp
}.

(** The events of an invocation; [to_datetime_at t] is [pd.to_datetime] as
    it reads a column at the time [t]. *)
Definition invoke {C} (to_datetime_at : Timestamp → DateParser)
    (inv : Invocation) (report_end_date : date) (df : DataFrame C)
  : list (Event C) :=
  seeded_process (seed inv) (to_datetime_at (now inv)) report_end_date df.

(** The claim of determinism: any two invocations on the upload with the
    cutoff emit the same events. *)
Definition deterministic {C} (to_datetime_at : Timestamp → DateParser)
    (c : date) (df : DataFrame C) : Prop :=
  ∀ inv1 inv2 : Invocation,
    invoke to_datetime_at inv1 c df = invoke to_datetime_at inv2 c df.

(** Two hash seeds to run the program with: one keeps the elements in the
    order [remove_dups] leaves them in, the other reverses it. *)
Module Seeds.

Definition forward : HashSeed :=
  {| layout := remove_dups;
     layout_NoDup := NoDup_remove_dups;
     layout_elem_of xs x := elem_of_remove_dups xs x |}.

Definition backward : HashSeed.
Proof.
  refine {| layout xs := reverse (remove_dups xs) |}.
  - intros xs. rewrite reverse_Permutation. apply NoDup_remove_dups.
  - intros xs x. by rewrite elem_of_reverse, elem_of_remove_dups.
Defined.

End Seeds.

(** The sample parser with a clock: as [pd.to_datetime] does, it reads the
    cell [today] as the time of the invocation; any other cell it reads as
    [Iso.parse] does. *)
Module IsoClock.

Definition parse_at (t : Timestamp) (s : string) : option Timestamp :=
  if String.eqb s "today" then Some t else Iso.parse s.

Definition parser_at (t : Timestamp) : DateParser :=
  {| to_datetime := fmap (parse_at t);
     to_datetime_length := length_fmap (parse_at t) |}.

(** A time of day, in nanoseconds after midnight. *)
Definition hms (h m s : Z) : Z := ((h * 60 + m) * 60 + s) * 1000000000.

End IsoClock.

(** An upload in which every [Date] cell carries a time, so that [Iso.parser]
    and [Iso.uniform_parser] read the same column; its second record is
    stamped at 10:30 on the day of the cutoff. *)
Module CutoffDay.

Definition upload : DataFrame Z :=
  mkDataFrame required_columns
    [ Sample.row "2024-01-10 09:00:00" "Facebook" "SummerSale" "Aud1" "AdA" 10;
      Sample.row "2024-01-15 10:30:00" "Google" "G1" "Aud2" "AdB" 60;
      Sample.row "2024-01-16 08:00:00" "Facebook" "Spring" "Aud1" "AdA" 40 ].

Definition cutoff : date := Iso.ymd 2024 1 15.

(** 2024-01-15 10:30:00 in nanoseconds since 1970-01-01 00:00:00. *)
Definition stamp : Timestamp := 1705314600000000000.

(** What the program shows for [upload] and [cutoff]. *)
Definition table : list (nat * FinalRow Z) :=
  [ (1%nat, mkFinalRow "Paid Social" "Google" "New" "G1"
                       "New" "Aud2" "New" "AdB" 60);
    (2%nat, mkFinalRow "Paid Social" "Facebook" "New" "Spring"
                       "Existing" "Aud1" "Existing" "AdA" 40) ].

(** The same upload with the second record stamped at 00:00 of that day,
    and what the program shows for it. *)
Definition upload_at_midnight : DataFrame Z :=
  mkDataFrame required_columns
    (<[1%nat := Sample.row "2024-01-15 00:00:00" "Google" "G1" "Aud2" "AdB" 60]>
       (records upload)).

Definition table_by_date : list (nat * FinalRow Z) :=
  [ (2%nat, mkFinalRow "Paid Social" "Facebook" "New" "Spring"
                       "Existing" "Aud1" "Existing" "AdA" 40) ].

End CutoffDay.

(** An upload with a [Date] cell that reads [today], and two invocations on
    it: one on the day before the cutoff, one on the day after. *)
Module Today.

Definition upload : DataFrame Z :=
  mkDataFrame required_columns
    [ Sample.row "2024-01-10" "Facebook" "SummerSale" "Aud1" "AdA" 10;
      Sample.row "today" "Google" "G1" "Aud2" "AdB" 60;
      Sample.row "2024-01-16" "Facebook" "Spring" "Aud1" "AdA" 40 ].

Definition cutoff : date := Iso.ymd 2024 1 15.

Definition day_before : Invocation :=
  {| seed := Seeds.forward;
     now := date_to_datetime (Iso.ymd 2024 1 14) + IsoClock.hms 9 0 0 |}.

Definition day_after : Invocation :=
  {| seed := Seeds.forward;
     now := date_to_datetime (Iso.ymd 2024 1 16) + IsoClock.hms 9 0 0 |}.

(** What the two invocations show. *)
Definition table_before : list (nat * FinalRow Z) :=
  [ (2%nat, mkFinalRow "Paid Social" "Facebook" "New" "Spring"
                       "Existing" "Aud1" "Existing" "AdA" 40) ].

Definition table_after : list (nat * FinalRow Z) :=
  [ (1%nat, mkFinalRow "Paid Social" "Google" "New" "G1"
                       "New" "Aud2" "New" "AdB" 60);
    (2%nat, mkFinalRow "Paid Social" "Facebook" "New" "Spring"
                       "Existing" "Aud1" "Existing" "AdA" 40) ].

End Today.

(** Two invocations that differ in seed and clock. *)
Module TwoRuns.

Definition first_run : Invocation :=
  {| seed := Seeds.forward;
     now := date_to_datetime (Iso.ymd 2024 2 1) + IsoClock.hms 9 0 0 |}.

Definition second_run : Invocation :=
  {| seed := Seeds.backward;
     now := date_to_datetime (Iso.ymd 2024 3 1) + IsoClock.hms 17 30 0 |}.

End TwoRuns.

(** * Properties *)

(** ** Index labels *)

Section Labels.
Context {A : Type}.
Implicit Types (l : list (nat * A)) (x : nat * A).

Lemma increasing_nil : increasing (@nil (nat * A)).
Proof. constructor. Qed.

Lemma increasing_cons x l :
  increasing (x :: l) ↔ increasing l ∧ Forall (λ y, (x.1 < y.1)%nat) l.
Proof.
  unfold increasing. rewrite fmap_cons, StronglySorted_cons.
  rewrite Forall_fmap. tauto.
Qed.

Lemma increasing_filter (P : nat * A → Prop) `{!∀ x, Decision (P x)} l :
  increasing l → increasing (filter P l).
Proof.
  induction l as [|x l IH]; [done|].
  rewrite increasing_cons. intros [Hl Hx].
  rewrite filter_cons. destruct (decide (P x)); [|by auto].
  apply increasing_cons. split; [by auto|].
  apply Forall_forall. intros y [_ Hy]%list_elem_of_filter.
  by eapply Forall_forall in Hx.
Qed.

Lemma increasing_fmap {B} (f : A → B) l :
  increasing l → increasing ((λ x, (x.1, f x.2)) <$> l).
Proof.
  unfold increasing. rewrite <-list_fmap_compose.
  by replace (fst ∘ (λ x : nat * A, (x.1, f x.2))) with (@fst nat A).
Qed.

Lemma increasing_app_cons l1 x l2 y :
  increasing (l1 ++ x :: l2) → y ∈ l2 → (x.1 < y.1)%nat.
Proof.
  induction l1 as [|z l1 IH]; simpl.
  - rewrite increasing_cons. intros [_ Hx] Hy.
    by eapply Forall_forall in Hx.
  - rewrite increasing_cons. intros [Hl _]. by apply IH.
Qed.

Lemma increasing_label_inj l i a b :
  increasing l → (i, a) ∈ l → (i, b) ∈ l → a = b.
Proof.
  induction l as [|x l IH]; [by intros _ ?%not_elem_of_nil|].
  rewrite increasing_cons, !elem_of_cons. intros [Hl Hx] [Ha|Ha] [Hb|Hb].
  - congruence.
  - eapply Forall_forall in Hx; [|done]. subst x; simpl in Hx. lia.
  - eapply Forall_forall in Hx; [|done]. subst x; simpl in Hx. lia.
  - by apply IH.
Qed.

Lemma increasing_imap (l : list A) : increasing (imap (λ i a, (i, a)) l).
Proof.
  unfold increasing. rewrite fmap_imap.
  assert (∀ (k : nat) (l : list A),
    StronglySorted lt (imap (λ i _, (k + i)%nat) l)) as Hk.
  { clear l. intros k l. revert k.
    induction l as [|a l IH]; intros k; [constructor|].
    rewrite imap_cons. constructor.
    - rewrite (imap_ext _ (λ i _, (S k + i)%nat)); [apply IH|].
      intros; simpl; lia.
    - apply Forall_forall. intros j (i & b & -> & _)%elem_of_lookup_imap.
      simpl. lia. }
  apply (Hk 0%nat).
Qed.

End Labels.

(** ** The parsed frame and its two partitions *)

Section Partition.
Context {C : Type}.
Implicit Types (P : DateParser) (c : date) (df : DataFrame C).
Implicit Types (row : Row (option Timestamp) C).

Lemma Date_set_Date {D D'} (d : D') (r : Row D C) : Date (set_Date d r) = d.
Proof. done. Qed.

Lemma length_dates P df : length (dates P df) = length (records df).
Proof. unfold dates. by rewrite to_datetime_length, length_fmap. Qed.

Lemma range_index_Date df :
  (λ ir, Date ir.2) <$> range_index df = Date <$> records df.
Proof.
  unfold range_index. rewrite fmap_imap, <-imap_const. by apply imap_ext.
Qed.

Lemma parsed_lookup_Some P df k ir :
  parsed P df !! k = Some ir ↔
  ∃ r d, records df !! k = Some r ∧ dates P df !! k = Some d
         ∧ ir = (k, set_Date d r).
Proof.
  unfold parsed, parse_dates, dates.
  rewrite lookup_zip_with_Some, range_index_Date. unfold range_index. split.
  - intros (x & d & -> & Hx & Hd).
    apply list_lookup_imap_Some in Hx as (r & Hr & ->). eauto.
  - intros (r & d & Hr & Hd & ->). exists (k, r), d.
    split_and!; [done| |done]. apply list_lookup_imap_Some. eauto.
Qed.

Lemma elem_of_parsed P df i row :
  (i, row) ∈ parsed P df ↔
  ∃ r d, records df !! i = Some r ∧ dates P df !! i = Some d
         ∧ row = set_Date d r.
Proof.
  rewrite list_elem_of_lookup. split.
  - intros (k & (r & d & Hr & Hd & [= -> ->])%parsed_lookup_Some). eauto.
  - intros (r & d & Hr & Hd & ->). exists i.
    apply parsed_lookup_Some. eauto.
Qed.

Lemma parse_dates_labels P (df : Frame string C) :
  (parse_dates P df).*1 = df.*1.
Proof.
  unfold parse_dates.
  assert (length df = length (to_datetime P ((λ ir, Date ir.2) <$> df))) as Hlen
    by (by rewrite to_datetime_length, length_fmap).
  revert Hlen. generalize (to_datetime P ((λ ir, Date ir.2) <$> df)).
  induction df as [|ir df IH]; intros [|d ds] Hlen; simplify_eq/=; [done|].
  f_equal. by apply IH.
Qed.

Lemma parsed_increasing P df : increasing (parsed P df).
Proof.
  unfold parsed, increasing. rewrite parse_dates_labels.
  apply increasing_imap.
Qed.

(** Every record gets a row of the parsed frame. *)
Lemma parsed_total P df i r :
  records df !! i = Some r → ∃ d, dates P df !! i = Some d.
Proof.
  intros Hr%lookup_lt_Some. apply lookup_lt_is_Some.
  by rewrite length_dates.
Qed.

Lemma elem_of_dropna P df i row :
  (i, row) ∈ dropna (parsed P df) ↔
  ∃ r t, records df !! i = Some r ∧ dates P df !! i = Some (Some t)
         ∧ row = set_Date (Some t) r.
Proof.
  unfold dropna. rewrite list_elem_of_filter, elem_of_parsed. simpl. split.
  - intros [[t Ht] (r & d & Hr & Hd & ->)]. simpl in Ht. subst d. eauto.
  - intros (r & t & Hr & Hd & ->). split; [by eexists|eauto].
Qed.

Lemma elem_of_historical P c df i row :
  (i, row) ∈ historical P c df ↔
  ∃ r t, records df !! i = Some r ∧ dates P df !! i = Some (Some t)
         ∧ row = set_Date (Some t) r ∧ t ≤ date_to_datetime c.
Proof.
  unfold historical, before_df.
  rewrite list_elem_of_filter, elem_of_dropna. simpl. split.
  - intros [Hle (r & t & Hr & Hd & ->)]. simpl in Hle.
    apply bool_decide_unpack in Hle. eauto 10.
  - intros (r & t & Hr & Hd & -> & Hle). split; [|eauto].
    simpl. by apply bool_decide_pack.
Qed.

Lemma elem_of_recent P c df i row :
  (i, row) ∈ recent P c df ↔
  ∃ r t, records df !! i = Some r ∧ dates P df !! i = Some (Some t)
         ∧ row = set_Date (Some t) r ∧ date_to_datetime c < t.
Proof.
  unfold recent, after_df.
  rewrite list_elem_of_filter, elem_of_dropna. simpl. split.
  - intros [Hle (r & t & Hr & Hd & ->)]. simpl in Hle.
    apply bool_decide_unpack in Hle. eauto 10.
  - intros (r & t & Hr & Hd & -> & Hle). split; [|eauto].
    simpl. by apply bool_decide_pack.
Qed.

Lemma recent_increasing P c df : increasing (recent P c df).
Proof.
  unfold recent, after_df, dropna.
  do 2 apply increasing_filter. apply parsed_increasing.
Qed.

(** The mask of line 62 changes neither partition: a comparison with
    [NaT] is already false. *)
Lemma before_df_dropna c (df : Frame (option Timestamp) C) :
  before_df c (dropna df) = before_df c df.
Proof.
  unfold before_df, dropna. rewrite list_filter_filter.
  apply list_filter_iff. intros [i r]; simpl.
  destruct (Date r); simpl; [|tauto]. split; [tauto|]. by eauto.
Qed.

Lemma after_df_dropna c (df : Frame (option Timestamp) C) :
  after_df c (dropna df) = after_df c df.
Proof.
  unfold after_df, dropna. rewrite list_filter_filter.
  apply list_filter_iff. intros [i r]; simpl.
  destruct (Date r); simpl; [|tauto]. split; [tauto|]. by eauto.
Qed.

End Partition.

(** ** Keeping the first row of every combination *)

Section DropDuplicates.
Context {C : Type}.
Implicit Types (l : list (nat * FinalRow C)) (x y : nat * FinalRow C).
Implicit Types (seen : gset (string * string * string * string)).

Lemma not_elem_of_seen (k k' : string * string * string * string) seen :
  k ∉ {[k']} ∪ seen ↔ k ≠ k' ∧ k ∉ seen.
Proof. by rewrite not_elem_of_union, not_elem_of_singleton. Qed.

Lemma elem_of_drop_duplicates_from seen l x :
  x ∈ drop_duplicates_from seen l ↔
  ∃ l1 l2, l = l1 ++ x :: l2 ∧ (combination x.2 ∉ seen)
           ∧ ∀ y, y ∈ l1 → combination y.2 ≠ combination x.2.
Proof.
  revert seen. induction l as [|z l IH]; intros seen; simpl.
  - split; [by intros ?%not_elem_of_nil|].
    by intros ([|??] & ? & ? & _).
  - destruct (decide (combination z.2 ∈ seen)) as [Hz|Hz].
    + rewrite IH. split.
      * intros (l1 & l2 & -> & Hx & Hl1). exists (z :: l1), l2.
        split_and!; [done..|]. intros y [->|?]%elem_of_cons; [|by auto].
        congruence.
      * intros ([|z' l1] & l2 & Hl & Hx & Hl1); simplify_eq/=; [done|].
        exists l1, l2. split_and!; [done..|].
        intros y ?. apply Hl1. by right.
    + rewrite elem_of_cons, IH. split.
      * intros [->|(l1 & l2 & -> & [Hne Hx]%not_elem_of_seen & Hl1)].
        { exists [], l. split_and!; [done..|]. by intros ? ?%not_elem_of_nil. }
        exists (z :: l1), l2. split_and!; [done..|].
        intros y [->|?]%elem_of_cons; [congruence|by auto].
      * intros ([|z' l1] & l2 & Hl & Hx & Hl1); simplify_eq/=; [by left|].
        right. exists l1, l2. split_and!; [done| |].
        -- apply not_elem_of_seen. split; [|done].
           intros Heq. eapply Hl1; [by left|done].
        -- intros y ?. apply Hl1. by right.
Qed.

Lemma drop_duplicates_from_subseteq seen l x :
  x ∈ drop_duplicates_from seen l → x ∈ l.
Proof.
  intros (l1 & l2 & -> & _)%elem_of_drop_duplicates_from.
  apply elem_of_app. right. by left.
Qed.

Lemma drop_duplicates_from_fresh seen l x :
  x ∈ drop_duplicates_from seen l → combination x.2 ∉ seen.
Proof. by intros (l1 & l2 & _ & ? & _)%elem_of_drop_duplicates_from. Qed.

Lemma NoDup_drop_duplicates_from seen l :
  NoDup ((λ x, combination x.2) <$> drop_duplicates_from seen l).
Proof.
  revert seen. induction l as [|z l IH]; intros seen; simpl.
  - constructor.
  - destruct (decide (combination z.2 ∈ seen)); [by apply IH|].
    rewrite fmap_cons. constructor; [|by apply IH].
    intros (y & Hy & [Hne _]%drop_duplicates_from_fresh%not_elem_of_seen)
      %list_elem_of_fmap.
    congruence.
Qed.

Lemma drop_duplicates_from_complete seen l x :
  x ∈ l → combination x.2 ∉ seen →
  ∃ y, y ∈ drop_duplicates_from seen l ∧ combination y.2 = combination x.2.
Proof.
  revert seen. induction l as [|z l IH]; intros seen;
    [by intros ?%not_elem_of_nil|].
  simpl. intros [->|Hx]%elem_of_cons Hseen.
  - rewrite decide_False by done. exists z. split; [by left|done].
  - destruct (decide (combination z.2 ∈ seen)); [by apply IH|].
    destruct (decide (combination z.2 = combination x.2)) as [Heq|Hne].
    + exists z. split; [by left|done].
    + destruct (IH ({[combination z.2]} ∪ seen) Hx) as (y & ? & ?);
        [apply not_elem_of_seen; split; [congruence|done]|].
      exists y. split; [by right|done].
Qed.

Lemma drop_duplicates_from_increasing seen l :
  increasing l → increasing (drop_duplicates_from seen l).
Proof.
  revert seen. induction l as [|z l IH]; intros seen; [done|].
  rewrite increasing_cons. intros [Hl Hz]. simpl.
  destruct (decide (combination z.2 ∈ seen)); [by apply IH|].
  apply increasing_cons. split; [by apply IH|].
  apply Forall_forall. intros y Hy%drop_duplicates_from_subseteq.
  by eapply Forall_forall in Hz.
Qed.

(** A row kept by line 117 is the first of the frame with its
    combination: every other row with it carries a larger label. *)
Lemma drop_duplicates_first l x y :
  increasing l → x ∈ drop_duplicates l → y ∈ l →
  combination y.2 = combination x.2 → (x.1 ≤ y.1)%nat.
Proof.
  intros Hinc (l1 & l2 & -> & _ & Hl1)%elem_of_drop_duplicates_from Hy Heq.
  apply elem_of_app in Hy as [Hy|[->|Hy]%elem_of_cons].
  - by apply Hl1 in Hy.
  - done.
  - apply Nat.lt_le_incl. by eapply increasing_app_cons.
Qed.

End DropDuplicates.

(** ** Status columns, the filter of line 99 and the events of a run *)

Section Annotate.
Context {C : Type}.
Implicit Types (P : DateParser) (c : date) (df : DataFrame C).
Implicit Types (new : NewSets) (d : DisplayRow C) (f : FinalRow C).

Lemma status_New key (new : gset string) : status key new = "New" ↔ key ∈ new.
Proof. unfold status. by case_decide. Qed.

Lemma status_Existing key (new : gset string) :
  status key new = "Existing" ↔ key ∉ new.
Proof. unfold status. by case_decide. Qed.

Lemma any_new_iff d :
  any_new d ↔
  d_Campaign_Status d = "New" ∨ d_Ad_Set_Status d = "New"
  ∨ d_Ad_Status d = "New".
Proof.
  unfold any_new. rewrite !orb_True, !Is_true_true, !String.eqb_eq. tauto.
Qed.

Lemma display_row_set_Date {D D'} new (x : D') (r : Row D C) :
  display_row new (set_Date x r) = display_row new r.
Proof. done. Qed.

Lemma elem_of_display_df {D} new (after : Frame D C) i d :
  (i, d) ∈ display_df new after ↔
  ∃ r, (i, r) ∈ after ∧ d = display_row new r.
Proof.
  unfold display_df. rewrite list_elem_of_fmap. split.
  - intros ([j r] & [= -> ->] & Hin). eauto.
  - intros (r & Hin & ->). by exists (i, r).
Qed.

Lemma elem_of_filtered_df new (after : Frame (option Timestamp) C) i f :
  (i, f) ∈ filtered_df new after ↔
  ∃ r, (i, r) ∈ after ∧ any_new (display_row new r)
       ∧ f = rename_reorder (display_row new r).
Proof.
  unfold filtered_df. rewrite list_elem_of_fmap. split.
  - intros ([j d] & [= -> ->] & [Hnew Hin]%list_elem_of_filter).
    apply elem_of_display_df in Hin as (r & Hin & ->). eauto.
  - intros (r & Hin & Hnew & ->). exists (i, display_row new r).
    split; [done|]. apply list_elem_of_filter. split; [done|].
    apply elem_of_display_df. eauto.
Qed.

Lemma filtered_df_increasing new (after : Frame (option Timestamp) C) :
  increasing after → increasing (filtered_df new after).
Proof.
  intros Hinc. unfold filtered_df, display_df.
  apply (increasing_fmap rename_reorder), increasing_filter.
  by apply (increasing_fmap (display_row new)).
Qed.

Lemma retained_increasing P c df : increasing (retained P c df).
Proof. apply filtered_df_increasing, recent_increasing. Qed.

Lemma output_unfold P c df : output P c df = drop_duplicates (retained P c df).
Proof. done. Qed.

(** The events of a run that passes the check of line 53 and has a record
    after the cutoff. *)
Lemma process_ok P c df :
  has_required_columns (columns df) = true →
  recent P c df ≠ [] →
  process P c df =
    (if isnull_any (parsed P df) then [st_warning date_warning_message]
     else [])
    ++ [st_table (output P c df); st_download_button ((output P c df).*2)].
Proof.
  unfold process, recent, output, parsed. intros -> Hne. simpl.
  by destruct (after_df c _).
Qed.

(** The events of a run that passes the check and has none: line 87 raises
    and line 175 reports it. *)
Lemma process_no_recent P c df :
  has_required_columns (columns df) = true →
  recent P c df = [] →
  process P c df =
    (if isnull_any (parsed P df) then [st_warning date_warning_message]
     else [])
    ++ [st_error (processing_error_message empty_apply_error)].
Proof.
  unfold process, recent, parsed. intros -> Hnil. simpl. by rewrite Hnil.
Qed.

(** The events of a run that fails the check. *)
Lemma process_schema_error P c df :
  has_required_columns (columns df) = false →
  process P c df = [st_error schema_error_message].
Proof. unfold process. by intros ->. Qed.

Lemma recent_nil_dec P c df : recent P c df = [] ∨ recent P c df ≠ [].
Proof. destruct (recent P c df); [by left|by right]. Qed.

Lemma process_table P c df table :
  st_table table ∈ process P c df →
  has_required_columns (columns df) = true ∧ table = output P c df.
Proof.
  destruct (has_required_columns (columns df)) eqn:Hcols.
  - destruct (recent_nil_dec P c df) as [Hnil|Hne].
    + rewrite process_no_recent by done. intros Hin.
      destruct (isnull_any _); by inv_events Hin.
    + rewrite process_ok by done. intros Hin. split; [done|].
      destruct (isnull_any _); by inv_events Hin.
  - rewrite process_schema_error by done. intros Hin. by inv_events Hin.
Qed.

Lemma process_download P c df sheet :
  st_download_button sheet ∈ process P c df →
  has_required_columns (columns df) = true ∧ sheet = (output P c df).*2.
Proof.
  destruct (has_required_columns (columns df)) eqn:Hcols.
  - destruct (recent_nil_dec P c df) as [Hnil|Hne].
    + rewrite process_no_recent by done. intros Hin.
      destruct (isnull_any _); by inv_events Hin.
    + rewrite process_ok by done. intros Hin. split; [done|].
      destruct (isnull_any _); by inv_events Hin.
  - rewrite process_schema_error by done. intros Hin. by inv_events Hin.
Qed.

(** A run that shows a table has a record after the cutoff. *)
Lemma process_table_recent P c df table :
  st_table table ∈ process P c df → recent P c df ≠ [].
Proof.
  intros Hin Hnil. pose proof Hin as [Hcols _]%process_table.
  rewrite process_no_recent in Hin by done.
  destruct (isnull_any _); by inv_events Hin.
Qed.

(** Where a row of the shown table comes from. *)
Lemma elem_of_retained P c df i f :
  (i, f) ∈ retained P c df ↔
  ∃ r t, records df !! i = Some r ∧ dates P df !! i = Some (Some t)
         ∧ date_to_datetime c < t
         ∧ any_new (display_row (novelty P c df) r)
         ∧ f = rename_reorder (display_row (novelty P c df) r).
Proof.
  unfold retained. rewrite elem_of_filtered_df. split.
  - intros (row & (r & t & Hr & Hd & -> & Hlt)%elem_of_recent & Hnew & ->).
    exists r, t. by rewrite display_row_set_Date in *.
  - intros (r & t & Hr & Hd & Hlt & Hnew & ->).
    exists (set_Date (Some t) r). rewrite display_row_set_Date.
    split_and!; [|done..]. apply elem_of_recent. eauto 10.
Qed.

Lemma output_subseteq P c df x : x ∈ output P c df → x ∈ retained P c df.
Proof. apply drop_duplicates_from_subseteq. Qed.

End Annotate.

(** ** Novelty sets *)

Section Novelty.
Context {C : Type}.
Implicit Types (P : DateParser) (c : date) (df : DataFrame C).

Lemma elem_of_key_set {D} (key : Row D C → string) (fr : Frame D C) k :
  k ∈ key_set key fr ↔ ∃ ir, ir ∈ fr ∧ key ir.2 = k.
Proof.
  unfold key_set. rewrite elem_of_list_to_set, list_elem_of_fmap.
  split; intros (ir & ? & ?); eauto.
Qed.

Lemma difference_novelty_set_of {D} (key : Row D C → string)
    (before after : Frame D C) :
  novelty_set_of key (key_set key after ∖ key_set key before) before after.
Proof.
  unfold novelty_set_of. split_and!.
  - done.
  - intros k. by rewrite elem_of_difference, !elem_of_key_set.
  - apply subseteq_difference_l. done.
  - apply disjoint_difference_l1. done.
Qed.

(** C1. For every upload and cutoff, each of [new_campaigns], [new_adsets]
    and [new_ads] is the set difference of the keys of the recent and of
    the historical partition: a key is new exactly when some recent record
    has it and no historical record has it, so the new keys are among the
    recent keys and none of them is a historical key. *)
Theorem C1_novelty_is_set_difference P c df :
  novelty_set_of campaign_key (new_campaigns (novelty P c df))
                 (historical P c df) (recent P c df)
  ∧ novelty_set_of ad_set_key (new_adsets (novelty P c df))
                   (historical P c df) (recent P c df)
  ∧ novelty_set_of ad_key (new_ads (novelty P c df))
                   (historical P c df) (recent P c df).
Proof. split_and!; apply difference_novelty_set_of. Qed.

End Novelty.

(** ** The filter on the status columns *)

Section Filter.
Context {C : Type}.
Implicit Types (P : DateParser) (c : date) (df : DataFrame C).

Lemma elem_of_labels {A} (l : list (nat * A)) i :
  i ∈ l.*1 ↔ ∃ a, (i, a) ∈ l.
Proof.
  rewrite list_elem_of_fmap. split.
  - intros ([j a] & -> & ?). eauto.
  - intros (a & ?). by exists (i, a).
Qed.

Lemma retained_any_new P c df i f :
  (i, f) ∈ retained P c df →
  f_Campaign_Status f = "New" ∨ f_Ad_Set_Status f = "New"
  ∨ f_Ad_Status f = "New".
Proof.
  intros (r & t & _ & _ & _ & Hnew%any_new_iff & ->)%elem_of_retained.
  done.
Qed.

(** C2. Every row of the table a run shows, and of the sheet it exports,
    has [New] in at least one of its three status cells; a row of the
    recent partition whose three statuses are all [Existing] has no row in
    the table. *)
Theorem C2_every_output_row_has_a_New P c df table :
  st_table table ∈ process P c df →
  (∀ i f, (i, f) ∈ table →
     f_Campaign_Status f = "New" ∨ f_Ad_Set_Status f = "New"
     ∨ f_Ad_Status f = "New")
  ∧ st_download_button (table.*2) ∈ process P c df
  ∧ (∀ sheet f, st_download_button sheet ∈ process P c df → f ∈ sheet →
       f_Campaign_Status f = "New" ∨ f_Ad_Set_Status f = "New"
       ∨ f_Ad_Status f = "New")
  ∧ (∀ i row, (i, row) ∈ recent P c df →
       display_statuses (display_row (novelty P c df) row)
         = ("Existing", "Existing", "Existing") →
       i ∉ table.*1).
Proof.
  intros Hshown. pose proof (process_table_recent _ _ _ _ Hshown) as Hne.
  apply process_table in Hshown as [Hcols ->]. split_and!.
  - intros i f Hin%output_subseteq. by eapply retained_any_new.
  - rewrite process_ok by done.
    destruct (isnull_any _); simpl; repeat constructor.
  - intros sheet f [_ ->]%process_download
      ([i f'] & -> & Hin%output_subseteq)%list_elem_of_fmap.
    by eapply retained_any_new.
  - intros i row Hrow Hst (f & Hin%output_subseteq)%elem_of_labels.
    apply elem_of_filtered_df in Hin as (row' & Hrow' & Hnew & _).
    assert (row' = row) as ->
      by (eapply increasing_label_inj; eauto using recent_increasing).
    apply any_new_iff in Hnew. unfold display_statuses in Hst.
    simplify_eq. destruct Hnew as [?|[?|?]]; congruence.
Qed.

End Filter.

(** ** The boundary between the partitions *)

Section Boundary.
Context {C : Type}.
Implicit Types (P : DateParser) (c : date) (df : DataFrame C).

Lemma ns_per_day_pos : 0 < ns_per_day.
Proof. done. Qed.

Lemma timestamp_split (t : Timestamp) :
  t = day_of t * ns_per_day + time_of_day t
  ∧ 0 ≤ time_of_day t < ns_per_day.
Proof.
  unfold day_of, time_of_day. pose proof ns_per_day_pos.
  split; [|by apply Z.mod_pos_bound].
  pose proof (Z.div_mod t ns_per_day). lia.
Qed.

(** Comparing a timestamp with the midnight of the cutoff, in terms of
    its day and its time of day. *)
Lemma le_midnight (t : Timestamp) c :
  t ≤ date_to_datetime c ↔
  day_of t < c ∨ (day_of t = c ∧ time_of_day t = 0).
Proof.
  unfold date_to_datetime.
  destruct (timestamp_split t) as [Ht Hbound]. pose proof ns_per_day_pos.
  split.
  - intros Hle. destruct (decide (day_of t < c)) as [|Hge]; [by left|right].
    assert (day_of t = c) as Heq by nia. split; [done|]. nia.
  - intros [Hlt|[Heq Hz]]; nia.
Qed.

Lemma gt_midnight (t : Timestamp) c :
  date_to_datetime c < t ↔
  c < day_of t ∨ (day_of t = c ∧ 0 < time_of_day t).
Proof.
  pose proof (le_midnight t c). pose proof (timestamp_split t) as [_ ?].
  split.
  - intros Hlt. destruct (decide (c < day_of t)); [by left|right].
    destruct (decide (day_of t = c)) as [Heq|Hne].
    + split; [done|]. destruct (decide (time_of_day t = 0)); [|lia].
      assert (t ≤ date_to_datetime c) by (apply le_midnight; auto). lia.
    + assert (t ≤ date_to_datetime c) by (apply le_midnight; left; lia).
      lia.
  - intros Hgt. apply Z.nle_gt. rewrite le_midnight. lia.
Qed.

Lemma historical_label P c df i :
  i ∈ (historical P c df).*1 ↔
  ∃ t, dates P df !! i = Some (Some t) ∧ t ≤ date_to_datetime c.
Proof.
  rewrite elem_of_labels. split.
  - intros (row & (r & t & _ & Hd & _ & Hle)%elem_of_historical). eauto.
  - intros (t & Hd & Hle).
    destruct (lookup_lt_is_Some_2 (records df) i) as [r Hr].
    { rewrite <-(length_dates P). by eapply lookup_lt_Some. }
    exists (set_Date (Some t) r). apply elem_of_historical. eauto 10.
Qed.

Lemma recent_label P c df i :
  i ∈ (recent P c df).*1 ↔
  ∃ t, dates P df !! i = Some (Some t) ∧ date_to_datetime c < t.
Proof.
  rewrite elem_of_labels. split.
  - intros (row & (r & t & _ & Hd & _ & Hle)%elem_of_recent). eauto.
  - intros (t & Hd & Hle).
    destruct (lookup_lt_is_Some_2 (records df) i) as [r Hr].
    { rewrite <-(length_dates P). by eapply lookup_lt_Some. }
    exists (set_Date (Some t) r). apply elem_of_recent. eauto 10.
Qed.

(** Where lines 65 and 66 put a record whose date parses to the timestamp
    [t]: in exactly one partition, the historical one when [t] is at most
    the midnight that starts the cutoff day, the recent one when [t] is
    later. The time of day is compared too: a record of the cutoff day is
    historical only at 00:00 and recent at any later time; records of other
    days, and records without a time of day, are placed by their day. *)
Lemma partition_by_timestamp P c df i r t :
  records df !! i = Some r →
  dates P df !! i = Some (Some t) →
  ((i, set_Date (Some t) r) ∈ historical P c df ↔ t ≤ date_to_datetime c)
  ∧ ((i, set_Date (Some t) r) ∈ recent P c df ↔ date_to_datetime c < t)
  ∧ ((i ∈ (historical P c df).*1 ∧ i ∉ (recent P c df).*1)
     ∨ ((i ∉ (historical P c df).*1) ∧ i ∈ (recent P c df).*1))
  ∧ (t = date_to_datetime c →
       i ∈ (historical P c df).*1 ∧ i ∉ (recent P c df).*1)
  ∧ (i ∈ (historical P c df).*1 ↔
       day_of t < c ∨ (day_of t = c ∧ time_of_day t = 0))
  ∧ (i ∈ (recent P c df).*1 ↔
       c < day_of t ∨ (day_of t = c ∧ 0 < time_of_day t))
  ∧ (time_of_day t = 0 →
       (i ∈ (historical P c df).*1 ↔ day_of t ≤ c)
       ∧ (i ∈ (recent P c df).*1 ↔ c < day_of t)).
Proof.
  intros Hr Hd.
  assert (i ∈ (historical P c df).*1 ↔ t ≤ date_to_datetime c) as Hh.
  { rewrite historical_label. split; [|by eauto].
    intros (t' & Hd' & Hle). by simplify_eq. }
  assert (i ∈ (recent P c df).*1 ↔ date_to_datetime c < t) as Hrec.
  { rewrite recent_label. split; [|by eauto].
    intros (t' & Hd' & Hle). by simplify_eq. }
  split_and!.
  - rewrite elem_of_historical. split.
    + intros (r' & t' & ? & ? & ? & ?). by simplify_eq.
    + eauto 10.
  - rewrite elem_of_recent. split.
    + intros (r' & t' & ? & ? & ? & ?). by simplify_eq.
    + eauto 10.
  - rewrite Hh, Hrec. lia.
  - rewrite Hh, Hrec. lia.
  - by rewrite Hh, le_midnight.
  - by rewrite Hrec, gt_midnight.
  - intros Hz. rewrite Hh, Hrec, le_midnight, gt_midnight. lia.
Qed.

(** A record stamped on the cutoff day after 00:00 is recent and not
    historical, so the partition is not by date alone. *)
Lemma recent_on_the_cutoff_day P c df i t :
  dates P df !! i = Some (Some t) →
  day_of t = c → 0 < time_of_day t →
  i ∈ (recent P c df).*1
  ∧ (i ∉ (historical P c df).*1)
  ∧ ¬ date_only_partition P c df.
Proof.
  intros Hd Hday Htime.
  assert (i ∉ (historical P c df).*1) as Hnot.
  { rewrite historical_label. intros (t' & Hd' & Hle). simplify_eq.
    apply le_midnight in Hle. lia. }
  split_and!; [|done|].
  - rewrite recent_label. exists t. split; [done|].
    apply gt_midnight. by right.
  - intros Hclaim. destruct (Hclaim i t Hd) as [Hhist _].
    apply Hnot, Hhist. lia.
Qed.

End Boundary.

(** ** Deduplication and the status columns *)

Section Rows.
Context {C : Type}.
Implicit Types (P : DateParser) (c : date) (df : DataFrame C).

Lemma combination_display_row {D} new (r : Row D C) :
  combination (rename_reorder (display_row new r)) = key_columns r.
Proof. done. Qed.

Lemma statuses_display_row {D} new (r : Row D C) :
  statuses (rename_reorder (display_row new r))
  = display_statuses (display_row new r).
Proof. done. Qed.

(** The statuses of a record are a function of its four key columns. *)
Lemma display_statuses_key_columns {D D'} new (r : Row D C) (r' : Row D' C) :
  key_columns r = key_columns r' →
  display_statuses (display_row new r) = display_statuses (display_row new r').
Proof.
  unfold key_columns, display_statuses. simpl. by intros [= -> -> -> ->].
Qed.

Lemma any_new_statuses (d d' : DisplayRow C) :
  display_statuses d = display_statuses d' → any_new d = any_new d'.
Proof. unfold any_new, display_statuses. by intros [= -> -> ->]. Qed.

(** A recent record with the key columns of a retained row is retained. *)
Lemma recent_retained P c df i f j row :
  (i, f) ∈ retained P c df → (j, row) ∈ recent P c df →
  key_columns row = combination f →
  (j, rename_reorder (display_row (novelty P c df) row)) ∈ retained P c df.
Proof.
  intros (r & ? & _ & _ & _ & Hnew & ->)%elem_of_retained Hrow Hkey.
  apply elem_of_filtered_df. exists row. split_and!; [done| |done].
  rewrite combination_display_row in Hkey.
  by rewrite (any_new_statuses _ (display_row (novelty P c df) r))
    by by apply display_statuses_key_columns.
Qed.

(** C4. The table a run shows has no two rows with the same
    [(Channel, Campaign (Short), Ad Set, Ad)]. Each of its rows comes from
    the record of the upload at its label, carries that record's cost, and
    is the first in upload order among the rows that passed the filter,
    and among all recent records, with its combination; every combination
    that passed the filter has a row in the table. *)
Theorem C4_one_row_per_combination P c df table :
  st_table table ∈ process P c df →
  NoDup ((λ x, combination x.2) <$> table)
  ∧ (∀ i f, (i, f) ∈ table →
       (i, f) ∈ retained P c df
       ∧ (∃ r, records df !! i = Some r ∧ combination f = key_columns r
               ∧ f_Cost_USD f = Cost_USD r)
       ∧ (∀ j g, (j, g) ∈ retained P c df →
            combination g = combination f → (i ≤ j)%nat)
       ∧ (∀ j row, (j, row) ∈ recent P c df →
            key_columns row = combination f → (i ≤ j)%nat))
  ∧ (∀ j g, (j, g) ∈ retained P c df →
       ∃ i f, (i, f) ∈ table ∧ combination f = combination g).
Proof.
  intros [_ ->]%process_table. rewrite output_unfold. split_and!.
  - apply NoDup_drop_duplicates_from.
  - intros i f Hin.
    pose proof (drop_duplicates_from_subseteq _ _ _ Hin) as Hret.
    assert (∀ j g, (j, g) ∈ retained P c df →
              combination g = combination f → (i ≤ j)%nat) as Hfirst.
    { intros j g Hg Heq.
      apply (drop_duplicates_first (retained P c df) (i, f) (j, g));
        auto using retained_increasing. }
    split_and!; [done| |done|].
    + apply elem_of_retained in Hret as (r & t & Hr & _ & _ & _ & ->).
      by exists r.
    + intros j row Hrow Hkey. eapply Hfirst.
      * by eapply recent_retained.
      * by rewrite combination_display_row.
  - intros j g Hg.
    destruct (drop_duplicates_from_complete ∅ _ _ Hg) as ([i f] & ? & ?);
      [apply not_elem_of_empty|]. by exists i, f.
Qed.

(** C5. For every record of the recent partition the annotated frame has
    one row at its label, and in it each status is [New] exactly when the
    record's key of that type, [Channel + "_" + Campaign Name (Short)],
    [Ad Set] as it is, [Ad Name (Short)] as it is, belongs to the matching
    novelty set, and [Existing] exactly when it does not; each status
    reads its own key and its own set only. *)
Theorem C5_statuses_follow_membership P c df i row :
  (i, row) ∈ recent P c df →
  ∃ d, (∀ d', (i, d') ∈ annotated P c df ↔ d' = d)
    ∧ campaign_key row = Channel row +:+ "_" +:+ Campaign_Name_Short row
    ∧ ad_set_key row = Ad_Set row
    ∧ ad_key row = Ad_Name_Short row
    ∧ (d_Campaign_Status d = "New" ↔
         campaign_key row ∈ new_campaigns (novelty P c df))
    ∧ (d_Campaign_Status d = "Existing" ↔
         campaign_key row ∉ new_campaigns (novelty P c df))
    ∧ (d_Ad_Set_Status d = "New" ↔
         ad_set_key row ∈ new_adsets (novelty P c df))
    ∧ (d_Ad_Set_Status d = "Existing" ↔
         ad_set_key row ∉ new_adsets (novelty P c df))
    ∧ (d_Ad_Status d = "New" ↔ ad_key row ∈ new_ads (novelty P c df))
    ∧ (d_Ad_Status d = "Existing" ↔ ad_key row ∉ new_ads (novelty P c df)).
Proof.
  intros Hrow. exists (display_row (novelty P c df) row). split_and!.
  - intros d'. unfold annotated. rewrite elem_of_display_df. split.
    + intros (row' & Hrow' & ->).
      by rewrite (increasing_label_inj _ _ _ _ (recent_increasing P c df)
                    Hrow' Hrow).
    + intros ->. eauto.
  - done.
  - done.
  - done.
  - apply status_New.
  - apply status_Existing.
  - apply status_New.
  - apply status_Existing.
  - apply status_New.
  - apply status_Existing.
Qed.

(** C9. Two records of the recent partition that agree on [Channel],
    [Campaign Name (Short)], [Ad Set] and [Ad Name (Short)] get the same
    three statuses; so every row that passed the filter has, in the table
    shown, a row with its combination and with its statuses: line 117
    drops no row whose statuses differ from those of the row it keeps. *)
Theorem C9_duplicates_share_statuses P c df table :
  st_table table ∈ process P c df →
  (∀ i j row row', (i, row) ∈ recent P c df → (j, row') ∈ recent P c df →
     key_columns row = key_columns row' →
     display_statuses (display_row (novelty P c df) row)
     = display_statuses (display_row (novelty P c df) row'))
  ∧ (∀ j g, (j, g) ∈ retained P c df →
       ∃ i f, (i, f) ∈ table ∧ combination f = combination g
              ∧ statuses f = statuses g).
Proof.
  intros [_ ->]%process_table. split.
  - intros i j row row' _ _. apply display_statuses_key_columns.
  - intros j g Hg.
    destruct (drop_duplicates_from_complete ∅ _ _ Hg) as ([i f] & Hf & Heq);
      [apply not_elem_of_empty|].
    exists i, f. split_and!; [done..|].
    apply output_subseteq, elem_of_retained in Hf
      as (r & ? & _ & _ & _ & _ & ->).
    apply elem_of_retained in Hg as (r' & ? & _ & _ & _ & _ & ->).
    rewrite !statuses_display_row. apply display_statuses_key_columns.
    simpl in Heq. by rewrite !combination_display_row in Heq.
Qed.

End Rows.

(** ** The column check *)

Section Schema.
Context {C : Type}.
Implicit Types (P : DateParser) (c : date) (df : DataFrame C).

Lemma has_required_columns_true cols :
  has_required_columns cols = true ↔
  ∀ col, col ∈ required_columns → col ∈ cols.
Proof.
  unfold has_required_columns. rewrite forallb_forall.
  split; intros H col Hcol.
  - apply list_elem_of_In, H in Hcol. by apply bool_decide_eq_true in Hcol.
  - apply bool_decide_eq_true, H, list_elem_of_In, Hcol.
Qed.

Lemma has_required_columns_false cols :
  has_required_columns cols = false ↔
  ∃ col, col ∈ required_columns ∧ col ∉ cols.
Proof.
  rewrite <-not_true_iff_false, has_required_columns_true. split.
  - intros Hnot.
    destruct (decide (Exists (λ col, col ∉ cols) required_columns))
      as [Hex|Hall].
    + apply Exists_exists in Hex. done.
    + destruct Hnot. intros col Hcol.
      destruct (decide (col ∈ cols)); [done|].
      destruct Hall. apply Exists_exists. eauto.
  - intros (col & Hcol & Hmiss) Hall. auto.
Qed.

Lemma elem_of_missing_columns cols col :
  col ∈ missing_columns cols ↔ col ∈ required_columns ∧ col ∉ cols.
Proof. unfold missing_columns. rewrite list_elem_of_filter. tauto. Qed.

Lemma schema_error_message_mentions col :
  col ∈ required_columns → mentions schema_error_message col.
Proof.
  unfold required_columns. intros Hcol.
  repeat (apply elem_of_cons in Hcol as [->|Hcol]; [by vm_compute|]).
  by apply not_elem_of_nil in Hcol.
Qed.

(** C6, as the program has it. When the header of the upload lacks a
    required column the run emits one event, the error of line 54, and so
    neither a warning nor a table nor a download. The text of the error
    is fixed: it names all eight required columns, the missing ones among
    them, whichever are missing. *)
Theorem C6_schema_error P c df :
  (∃ col, col ∈ required_columns ∧ col ∉ columns df) →
  process P c df = [st_error schema_error_message]
  ∧ (∀ e, e ∈ process P c df → is_output e = false)
  ∧ (∀ col, col ∈ required_columns → mentions schema_error_message col)
  ∧ (∀ col, col ∈ missing_columns (columns df) →
       mentions schema_error_message col).
Proof.
  intros Hmiss%has_required_columns_false.
  rewrite process_schema_error by done. split_and!.
  - done.
  - intros e Hin. by inv_events Hin.
  - apply schema_error_message_mentions.
  - intros col [Hcol _]%elem_of_missing_columns.
    by apply schema_error_message_mentions.
Qed.

End Schema.

(** ** Dates that do not parse *)

Section Unparseable.
Context {C : Type}.
Implicit Types (P : DateParser) (c : date) (df : DataFrame C).

(** The parsed frame, from the parsed column. *)
Lemma parsed_dates P df :
  parsed P df =
  zip_with (λ ir d, (ir.1, set_Date d ir.2)) (range_index df) (dates P df).
Proof. unfold parsed, parse_dates, dates. by rewrite range_index_Date. Qed.

Lemma isnull_any_parsed P df :
  isnull_any (parsed P df) = true ↔ None ∈ dates P df.
Proof.
  unfold isnull_any. rewrite existsb_exists. split.
  - intros ([i row] & Hin%list_elem_of_In & Hnull%bool_decide_eq_true).
    apply elem_of_parsed in Hin as (r & d & _ & Hd & ->).
    simpl in Hnull. subst d. by eapply list_elem_of_lookup_2.
  - intros (i & Hd)%list_elem_of_lookup.
    destruct (lookup_lt_is_Some_2 (records df) i) as [r Hr].
    { rewrite <-(length_dates P). by eapply lookup_lt_Some. }
    exists (i, set_Date None r). split; [|by apply bool_decide_eq_true].
    apply list_elem_of_In, elem_of_parsed. eauto.
Qed.

Lemma warnings_process P c df :
  has_required_columns (columns df) = true →
  warnings (process P c df) =
  if isnull_any (parsed P df) then [st_warning date_warning_message] else [].
Proof.
  intros Hcols. destruct (recent_nil_dec P c df).
  - rewrite process_no_recent by done. by destruct (isnull_any _).
  - rewrite process_ok by done. by destruct (isnull_any _).
Qed.

(** A run reads the upload through its columns and the frames of lines 57
    and 62. *)
Lemma process_agree P c df df' :
  columns df' = columns df →
  isnull_any (parsed P df') = isnull_any (parsed P df) →
  dropna (parsed P df') = dropna (parsed P df) →
  process P c df' = process P c df.
Proof. unfold process, parsed. cbv zeta. by intros -> -> ->. Qed.

Lemma output_label P c df i :
  i ∈ (output P c df).*1 → i ∈ (recent P c df).*1.
Proof.
  rewrite !elem_of_labels.
  intros (f & (row & ? & _)%output_subseteq%elem_of_filtered_df). eauto.
Qed.

(** Two frames that agree on their [Date] column, and on every row whose
    date is not null, are equal after line 62. *)
Lemma dropna_agree (fr fr' : Frame (option Timestamp) C) :
  Forall2 (λ x y, Date x.2 = Date y.2 ∧ (is_Some (Date x.2) → x = y)) fr fr' →
  dropna fr = dropna fr'.
Proof.
  unfold dropna. induction 1 as [|x y fr fr' [Hd Hxy] _ IH]; [done|].
  rewrite !filter_cons. destruct (decide (is_Some (Date x.2))) as [Hx|Hx].
  - rewrite decide_True by (by rewrite <-Hd). by rewrite (Hxy Hx), IH.
  - rewrite decide_False by (by rewrite <-Hd). done.
Qed.

Lemma dropna_parsed_agree P df df' :
  Date <$> records df' = Date <$> records df →
  (∀ i r r' t, dates P df !! i = Some (Some t) →
     records df !! i = Some r → records df' !! i = Some r' → r' = r) →
  dropna (parsed P df') = dropna (parsed P df).
Proof.
  intros Hcol Hrows.
  assert (dates P df' = dates P df) as Hdates
    by (unfold dates; by rewrite Hcol).
  apply dropna_agree, Forall2_same_length_lookup. split.
  - rewrite !parsed_dates, !length_zip_with, Hdates. unfold range_index.
    rewrite !length_imap, <-(length_fmap Date (records df')), Hcol.
    by rewrite length_fmap.
  - intros i x y (r' & d' & Hr' & Hd' & ->)%parsed_lookup_Some
      (r & d & Hr & Hd & ->)%parsed_lookup_Some.
    rewrite Hdates in Hd'. simplify_eq. simpl. split; [done|].
    intros [t ->]. by rewrite (Hrows i r r' t).
Qed.

(** C7. In a run that passes the column check, a record whose date does
    not parse is in neither partition and has no row in the table shown;
    the run warns once when some date did not parse, however many, and
    not at all when every date parsed; and the records with unparseable
    dates influence nothing: an upload with the same [Date] column that
    differs only in such records yields the same novelty sets and the
    same events. *)
Theorem C7_unparseable_dates P c df :
  has_required_columns (columns df) = true →
  (∀ i, dates P df !! i = Some None →
     (i ∉ (historical P c df).*1) ∧ (i ∉ (recent P c df).*1)
     ∧ ∀ table, st_table table ∈ process P c df → i ∉ table.*1)
  ∧ (None ∈ dates P df →
       warnings (process P c df) = [st_warning date_warning_message])
  ∧ (None ∉ dates P df → warnings (process P c df) = [])
  ∧ (∀ df' : DataFrame C,
       columns df' = columns df →
       Date <$> records df' = Date <$> records df →
       (∀ i r r' t, dates P df !! i = Some (Some t) →
          records df !! i = Some r → records df' !! i = Some r' → r' = r) →
       novelty P c df' = novelty P c df
       ∧ process P c df' = process P c df).
Proof.
  intros Hcols. split_and!.
  - intros i Hd.
    assert (i ∉ (recent P c df).*1) as Hrec.
    { rewrite recent_label. intros (t & ? & _). congruence. }
    split_and!; [|done|].
    + rewrite historical_label. intros (t & ? & _). congruence.
    + intros table [_ ->]%process_table Hin%output_label. done.
  - intros Hnull%isnull_any_parsed.
    by rewrite warnings_process, Hnull.
  - intros Hnull. rewrite warnings_process by done.
    destruct (isnull_any _) eqn:Hany; [|done].
    by apply isnull_any_parsed in Hany.
  - intros df' Hcols' Hcol Hrows.
    pose proof (dropna_parsed_agree P df df' Hcol Hrows) as Hdrop.
    split.
    + unfold novelty, historical, recent. by rewrite Hdrop.
    + apply process_agree; [done| |done].
      assert (dates P df' = dates P df) as Hdates
        by (unfold dates; by rewrite Hcol).
      pose proof (isnull_any_parsed P df) as H1.
      pose proof (isnull_any_parsed P df') as H2. rewrite Hdates in H2.
      destruct (isnull_any (parsed P df)), (isnull_any (parsed P df'));
        try done.
      * pose proof (proj2 H2 (proj1 H1 eq_refl)). done.
      * pose proof (proj2 H1 (proj1 H2 eq_refl)). done.
Qed.

End Unparseable.

(** ** Invocations *)

Section Determinism.
Context {C : Type}.
Implicit Types (P : DateParser) (c : date) (df : DataFrame C).
Implicit Types (H : HashSeed) (inv : Invocation).

(** A run reads the parser only through the parse of the [Date] column. *)
Lemma process_dates P1 P2 c df :
  dates P1 df = dates P2 df → process P1 c df = process P2 c df.
Proof.
  intros Hdates.
  assert (parse_dates P1 (range_index df) = parse_dates P2 (range_index df))
    as Hparsed.
  { change (parsed P1 df = parsed P2 df). by rewrite !parsed_dates, Hdates. }
  unfold process. by rewrite Hparsed.
Qed.

Lemma elem_of_unique_from seen xs x :
  x ∈ unique_from seen xs ↔ x ∈ xs ∧ x ∉ seen.
Proof.
  revert seen. induction xs as [|y xs IH]; intros seen; simpl.
  - split; [by intros ?%not_elem_of_nil|by intros [?%not_elem_of_nil _]].
  - destruct (decide (y ∈ seen)) as [Hy|Hy].
    + rewrite IH, elem_of_cons. split; [by intros [? ?]; auto|].
      intros [[->|?] ?]; by auto.
    + rewrite !elem_of_cons, IH, not_elem_of_cons. split.
      * intros [->|(? & ? & ?)]; by auto.
      * intros [[->|?] ?]; [by left|].
        destruct (decide (x = y)) as [->|?]; by auto.
Qed.

Lemma elem_of_unique xs x : x ∈ unique xs ↔ x ∈ xs.
Proof.
  unfold unique. rewrite elem_of_unique_from. split; [by intros [? _]|].
  intros Hin. split; [done|]. apply not_elem_of_nil.
Qed.

Lemma elem_of_py_set H xs x : x ∈ py_set H xs ↔ x ∈ xs.
Proof. apply layout_elem_of. Qed.

Lemma elem_of_py_difference H a b x :
  x ∈ py_difference H a b ↔ x ∈ a ∧ x ∉ b.
Proof.
  unfold py_difference. by rewrite layout_elem_of, list_elem_of_filter, (comm and).
Qed.

(** A set of Python holds its elements once, whatever the seed. *)
Lemma NoDup_py_difference H a b : NoDup (py_difference H a b).
Proof. apply layout_NoDup. Qed.

Lemma seeded_status_status key (new : list string) (new' : gset string) :
  (key ∈ new ↔ key ∈ new') → seeded_status key new = status key new'.
Proof.
  intros Hiff. unfold seeded_status, status, py_in.
  destruct (decide (key ∈ new')) as [Hin|Hin].
  - by rewrite bool_decide_eq_true_2 by (by apply Hiff).
  - by rewrite bool_decide_eq_false_2 by (by rewrite Hiff).
Qed.

(** The sets of lines 79 to 81 have the same members under every seed. *)
Lemma elem_of_seeded_new_sets {D} H (before after : Frame D C) k :
  (k ∈ seeded_new_campaigns (seeded_new_sets H before after)
     ↔ k ∈ new_campaigns (new_sets before after))
  ∧ (k ∈ seeded_new_adsets (seeded_new_sets H before after)
     ↔ k ∈ new_adsets (new_sets before after))
  ∧ (k ∈ seeded_new_ads (seeded_new_sets H before after)
     ↔ k ∈ new_ads (new_sets before after)).
Proof.
  unfold seeded_new_sets, new_sets, key_set. simpl.
  rewrite !elem_of_py_difference, !elem_of_py_set, !elem_of_unique.
  rewrite !elem_of_difference, !elem_of_list_to_set. done.
Qed.

Lemma seeded_display_row_display_row {D} H (before after : Frame D C)
    (r : Row D C) :
  seeded_display_row (seeded_new_sets H before after) r
  = display_row (new_sets before after) r.
Proof.
  unfold seeded_display_row, display_row.
  pose proof (λ k, elem_of_seeded_new_sets H before after k) as Hk.
  f_equal; apply seeded_status_status, Hk.
Qed.

Lemma seeded_classify_classify H c (fr : Frame (option Timestamp) C) :
  seeded_classify H c fr = classify c fr.
Proof.
  unfold seeded_classify, classify, filtered_df, display_df. cbv zeta.
  do 3 f_equal. apply list_fmap_ext. intros _ [i r] _. simpl.
  by rewrite seeded_display_row_display_row.
Qed.

(** The seed of the process has no part in what a run emits. *)
Lemma seeded_process_process H P c df :
  seeded_process H P c df = process P c df.
Proof.
  unfold seeded_process, process. cbv zeta.
  by rewrite seeded_classify_classify.
Qed.

Lemma invoke_process (to_datetime_at : Timestamp → DateParser) inv c df :
  invoke to_datetime_at inv c df = process (to_datetime_at (now inv)) c df.
Proof. apply seeded_process_process. Qed.


End Determinism.

(** ** Costs are carried, never read *)

Section Cost.
Context {C : Type}.
Implicit Types (P : DateParser) (c : date) (df : DataFrame C).

Local Abbreviation rows_but_cost := (fmap (λ x, (x.1, row_but_cost x.2))).
Local Abbreviation finals_but_cost := (fmap (λ x, (x.1, final_but_cost x.2))).

Lemma filter_fmap_comm {A B} (g : A → B)
    (Q : B → Prop) `{!∀ y, Decision (Q y)}
    (Q' : A → Prop) `{!∀ x, Decision (Q' x)} (l : list A) :
  (∀ x, Q' x ↔ Q (g x)) → filter Q (g <$> l) = g <$> filter Q' l.
Proof.
  intros HQ. induction l as [|x l IH]; [done|].
  rewrite fmap_cons, !filter_cons, IH.
  destruct (decide (Q' x)) as [Hx|Hx].
  - by rewrite decide_True by (by apply HQ).
  - by rewrite decide_False by (by rewrite <-HQ).
Qed.

Lemma fmap_zip_with_comm {A B D E} (h : D → E) (f : A → B → D) l k :
  h <$> zip_with f l k = zip_with (λ x y, h (f x y)) l k.
Proof.
  revert k. induction l as [|x l IH]; intros [|y k]; [done..|].
  simpl. by rewrite IH.
Qed.

Lemma range_index_but_cost df :
  range_index (upload_but_cost df) = rows_but_cost (range_index df).
Proof. unfold range_index. simpl. by rewrite imap_fmap, fmap_imap. Qed.

Lemma parsed_but_cost P df :
  parsed P (upload_but_cost df) = rows_but_cost (parsed P df).
Proof.
  unfold parsed, parse_dates. rewrite range_index_but_cost.
  rewrite <-list_fmap_compose, zip_with_fmap_l, fmap_zip_with_comm.
  done.
Qed.

Lemma dropna_but_cost (fr : Frame (option Timestamp) C) :
  dropna (rows_but_cost fr) = rows_but_cost (dropna fr).
Proof. unfold dropna. by apply filter_fmap_comm. Qed.

Lemma before_df_but_cost c (fr : Frame (option Timestamp) C) :
  before_df c (rows_but_cost fr) = rows_but_cost (before_df c fr).
Proof. unfold before_df. by apply filter_fmap_comm. Qed.

Lemma after_df_but_cost c (fr : Frame (option Timestamp) C) :
  after_df c (rows_but_cost fr) = rows_but_cost (after_df c fr).
Proof. unfold after_df. by apply filter_fmap_comm. Qed.

Lemma new_sets_but_cost {D} (before after : Frame D C) :
  new_sets (rows_but_cost before) (rows_but_cost after)
  = new_sets before after.
Proof.
  unfold new_sets, key_set. by rewrite <-!list_fmap_compose.
Qed.

Lemma isnull_any_but_cost (fr : Frame (option Timestamp) C) :
  isnull_any (rows_but_cost fr) = isnull_any fr.
Proof.
  unfold isnull_any. induction fr as [|x fr IH]; [done|].
  rewrite fmap_cons. cbn [existsb]. by rewrite IH.
Qed.

Lemma filtered_df_but_cost new (after : Frame (option Timestamp) C) :
  filtered_df new (rows_but_cost after)
  = finals_but_cost (filtered_df new after).
Proof.
  unfold filtered_df, display_df. rewrite <-!list_fmap_compose.
  rewrite (filter_fmap_comm _ _ (λ ir, any_new (display_row new ir.2)))
    by done.
  rewrite (filter_fmap_comm (λ ir, (ir.1, display_row new ir.2)) _
             (λ ir, any_new (display_row new ir.2)) after) by done.
  by rewrite <-!list_fmap_compose.
Qed.

Lemma drop_duplicates_from_but_cost seen (l : list (nat * FinalRow C)) :
  drop_duplicates_from seen (finals_but_cost l)
  = finals_but_cost (drop_duplicates_from seen l).
Proof.
  revert seen. induction l as [|x l IH]; intros seen; [done|].
  rewrite fmap_cons. simpl.
  change (combination (final_but_cost x.2)) with (combination x.2).
  destruct (decide (combination x.2 ∈ seen)); [by apply IH|].
  rewrite fmap_cons. f_equal. by apply IH.
Qed.

Lemma novelty_but_cost P c df :
  novelty P c (upload_but_cost df) = novelty P c df.
Proof.
  unfold novelty, historical, recent.
  rewrite parsed_but_cost, dropna_but_cost.
  by rewrite before_df_but_cost, after_df_but_cost, new_sets_but_cost.
Qed.

Lemma recent_but_cost P c df :
  recent P c (upload_but_cost df) = rows_but_cost (recent P c df).
Proof.
  unfold recent. by rewrite parsed_but_cost, dropna_but_cost, after_df_but_cost.
Qed.

Lemma output_but_cost P c df :
  output P c (upload_but_cost df) = finals_but_cost (output P c df).
Proof.
  unfold output, classify.
  rewrite parsed_but_cost, dropna_but_cost.
  rewrite before_df_but_cost, after_df_but_cost, new_sets_but_cost.
  rewrite filtered_df_but_cost. apply drop_duplicates_from_but_cost.
Qed.

(** Erasing the costs of the upload erases the costs of the events. *)
Lemma process_but_cost P c df :
  process P c (upload_but_cost df) = event_but_cost <$> process P c df.
Proof.
  destruct (has_required_columns (columns df)) eqn:Hcols.
  - destruct (recent_nil_dec P c df) as [Hnil|Hne].
    + rewrite !process_no_recent by (by rewrite ?recent_but_cost, ?Hnil).
      rewrite parsed_but_cost, isnull_any_but_cost.
      by destruct (isnull_any _).
    + rewrite !process_ok; [|done..|done|].
      * rewrite parsed_but_cost, isnull_any_but_cost, output_but_cost.
        rewrite fmap_app. simpl. rewrite <-!list_fmap_compose.
        by destruct (isnull_any _).
      * rewrite recent_but_cost. by destruct (recent P c df).
  - by rewrite !process_schema_error by done.
Qed.

End Cost.

(** C10. Two uploads that are the same apart from the values of their
    [Cost (USD)] column give runs with the same events up to cost: the same
    error or warning, tables with the same labels in the same order whose
    rows agree on every cell but the cost, and sheets likewise; their
    novelty sets are equal, and so are the labels of the rows of their
    tables. *)
Theorem C10_cost_independence {C1 C2} P c
    (df1 : DataFrame C1) (df2 : DataFrame C2) :
  upload_but_cost df1 = upload_but_cost df2 →
  event_but_cost <$> process P c df1 = event_but_cost <$> process P c df2
  ∧ novelty P c df1 = novelty P c df2
  ∧ (λ x, (x.1, final_but_cost x.2)) <$> output P c df1
    = (λ x, (x.1, final_but_cost x.2)) <$> output P c df2.
Proof.
  intros Heq. split_and!.
  - by rewrite <-!process_but_cost, Heq.
  - by rewrite <-(novelty_but_cost P c df1), <-(novelty_but_cost P c df2), Heq.
  - by rewrite <-!output_but_cost, Heq.
Qed.

(** * Further properties of the program *)

(** ** Where the rows of the table come from *)

Section Provenance.
Context {C : Type}.
Implicit Types (P : DateParser) (c : date) (df : DataFrame C).

Lemma sublist_drop_duplicates_from seen (l : list (nat * FinalRow C)) :
  drop_duplicates_from seen l `sublist_of` l.
Proof.
  revert seen. induction l as [|x l IH]; intros seen; simpl; [done|].
  destruct (decide (combination x.2 ∈ seen)).
  - by apply sublist_cons.
  - by apply sublist_skip.
Qed.

Lemma filtered_df_labels new (after : Frame (option Timestamp) C) :
  (filtered_df new after).*1 `sublist_of` after.*1.
Proof.
  unfold filtered_df, display_df. rewrite <-list_fmap_compose.
  change (fst ∘ (λ id : nat * DisplayRow C, (id.1, rename_reorder id.2)))
    with (@fst nat (DisplayRow C)).
  transitivity (((λ ir : nat * Row (option Timestamp) C,
                    (ir.1, display_row new ir.2)) <$> after).*1).
  - apply fmap_sublist, sublist_filter.
  - by rewrite <-list_fmap_compose.
Qed.

Lemma recent_labels P c df :
  (recent P c df).*1 `sublist_of` seq 0 (length (records df)).
Proof.
  unfold recent, after_df, dropna.
  transitivity ((parsed P df).*1).
  - apply fmap_sublist. etransitivity; apply sublist_filter.
  - unfold parsed. rewrite parse_dates_labels. unfold range_index.
    rewrite fmap_imap.
    rewrite (imap_ext _ (λ i _, i) (records df)) by done.
    by rewrite imap_seq_0, list_fmap_id.
Qed.

(** Every row of the table shown is a record of the upload, the one at its
    label: its date parsed to a time after the midnight of the cutoff, and
    its [Media Source], [Channel], [Campaign Name (Short)], [Ad Set],
    [Ad Name (Short)] and [Cost (USD)] cells are copied unchanged. *)
Theorem table_rows_are_upload_records P c df table i f :
  st_table table ∈ process P c df → (i, f) ∈ table →
  ∃ r t, records df !! i = Some r
    ∧ dates P df !! i = Some (Some t) ∧ date_to_datetime c < t
    ∧ f_Media_Source f = Media_Source r
    ∧ f_Channel f = Channel r
    ∧ f_Campaign_Short f = Campaign_Name_Short r
    ∧ f_Ad_Set f = Ad_Set r
    ∧ f_Ad f = Ad_Name_Short r
    ∧ f_Cost_USD f = Cost_USD r.
Proof.
  intros [_ ->]%process_table
    (r & t & Hr & Hd & Hlt & _ & ->)%output_subseteq%elem_of_retained.
  exists r, t. by split_and!.
Qed.

(** The table keeps the order of the upload: its labels are a subsequence
    of the labels of the recent partition, which are a subsequence of the
    positions [0 .. n-1] of the upload; so the labels grow strictly down
    the table and the table has at most as many rows as the recent
    partition. *)
Theorem table_in_upload_order P c df table :
  st_table table ∈ process P c df →
  table.*1 `sublist_of` (recent P c df).*1
  ∧ (recent P c df).*1 `sublist_of` seq 0 (length (records df))
  ∧ StronglySorted lt (table.*1)
  ∧ (length table ≤ length (recent P c df))%nat
  ∧ (length (recent P c df) ≤ length (records df))%nat.
Proof.
  intros [_ ->]%process_table.
  assert ((output P c df).*1 `sublist_of` (recent P c df).*1) as Hsub.
  { rewrite output_unfold. etransitivity; [|apply filtered_df_labels].
    apply fmap_sublist, sublist_drop_duplicates_from. }
  pose proof (recent_labels P c df) as Hrec.
  split_and!; [done|done| | |].
  - apply drop_duplicates_from_increasing, retained_increasing.
  - apply sublist_length in Hsub. by rewrite !length_fmap in Hsub.
  - apply sublist_length in Hrec.
    by rewrite length_fmap, length_seq in Hrec.
Qed.

End Provenance.

(** ** What a status says about the upload *)

Section StatusMeaning.
Context {C : Type}.
Implicit Types (P : DateParser) (c : date) (df : DataFrame C).

Lemma elem_of_historical_keys P c df (key : ∀ D, Row D C → string) k :
  (∀ D D' (d : D') (r : Row D C), key D' (set_Date d r) = key D r) →
  k ∈ key_set (key _) (historical P c df) ↔ seen_before P c df (key _) k.
Proof.
  intros Hkey. rewrite elem_of_key_set. unfold seen_before. split.
  - intros ([j row] & (h & t & ? & ? & -> & ?)%elem_of_historical & <-).
    exists j, h, t. simpl. by rewrite Hkey.
  - intros (j & h & t & ? & ? & ? & <-).
    exists (j, set_Date (Some t) h). simpl. rewrite Hkey. split; [|done].
    apply elem_of_historical. eauto 10.
Qed.

Lemma recent_key_in_key_set {D} (key : Row D C → string)
    (after : Frame D C) i row :
  (i, row) ∈ after → key row ∈ key_set key after.
Proof. intros Hin. apply elem_of_key_set. by exists (i, row). Qed.

Lemma difference_membership (R H : gset string) k :
  k ∈ R → (k ∈ R ∖ H ↔ k ∉ H) ∧ (k ∉ R ∖ H ↔ k ∈ H).
Proof. intros HR. rewrite elem_of_difference. destruct (decide (k ∈ H)); tauto. Qed.

(** The novelty of the keys of a recent record against the records seen
    before. *)
Lemma recent_status_meaning P c df i row :
  (i, row) ∈ recent P c df →
  ((campaign_key row ∈ new_campaigns (novelty P c df) ↔
      ¬ seen_before P c df campaign_key (campaign_key row))
   ∧ (campaign_key row ∉ new_campaigns (novelty P c df) ↔
        seen_before P c df campaign_key (campaign_key row)))
  ∧ ((ad_set_key row ∈ new_adsets (novelty P c df) ↔
        ¬ seen_before P c df ad_set_key (ad_set_key row))
     ∧ (ad_set_key row ∉ new_adsets (novelty P c df) ↔
          seen_before P c df ad_set_key (ad_set_key row)))
  ∧ ((ad_key row ∈ new_ads (novelty P c df) ↔
        ¬ seen_before P c df ad_key (ad_key row))
     ∧ (ad_key row ∉ new_ads (novelty P c df) ↔
          seen_before P c df ad_key (ad_key row))).
Proof.
  intros Hrow. unfold novelty, new_sets. simpl.
  rewrite <-(elem_of_historical_keys P c df (@campaign_key C)) by done.
  rewrite <-(elem_of_historical_keys P c df (@ad_set_key C)) by done.
  rewrite <-(elem_of_historical_keys P c df (@ad_key C)) by done.
  split_and!; apply difference_membership;
    by eapply recent_key_in_key_set.
Qed.

(** In the table shown, a campaign status is [New] exactly when no record
    with a parsed date on or before the midnight of the cutoff has the key
    [Channel + "_" + Campaign (Short)] of the row, and [Existing] exactly
    when some record has; likewise the ad set status for the [Ad Set] text
    and the ad status for the [Ad] text, whatever the channel and the
    campaign of the earlier record. *)
Theorem table_status_meaning P c df table i f :
  st_table table ∈ process P c df → (i, f) ∈ table →
  (f_Campaign_Status f = "New" ↔
     ¬ seen_before P c df campaign_key
         (f_Channel f +:+ "_" +:+ f_Campaign_Short f))
  ∧ (f_Campaign_Status f = "Existing" ↔
       seen_before P c df campaign_key
         (f_Channel f +:+ "_" +:+ f_Campaign_Short f))
  ∧ (f_Ad_Set_Status f = "New" ↔
       ¬ seen_before P c df ad_set_key (f_Ad_Set f))
  ∧ (f_Ad_Set_Status f = "Existing" ↔
       seen_before P c df ad_set_key (f_Ad_Set f))
  ∧ (f_Ad_Status f = "New" ↔ ¬ seen_before P c df ad_key (f_Ad f))
  ∧ (f_Ad_Status f = "Existing" ↔ seen_before P c df ad_key (f_Ad f)).
Proof.
  intros [_ ->]%process_table
    (row & Hrow & _ & ->)%output_subseteq%elem_of_filtered_df.
  destruct (recent_status_meaning P c df i row Hrow)
    as ([Hc Hc'] & [Hs Hs'] & [Ha Ha']).
  simpl. rewrite !status_New, !status_Existing.
  change (Channel row +:+ "_" +:+ Campaign_Name_Short row)
    with (campaign_key row).
  change (Ad_Set row) with (ad_set_key row).
  change (Ad_Name_Short row) with (ad_key row).
  by split_and!.
Qed.

Lemma append_assoc (s1 s2 s3 : string) :
  (s1 +:+ s2) +:+ s3 = s1 +:+ (s2 +:+ s3).
Proof.
  induction s1 as [|a s1 IH]; [done|].
  change (String a ((s1 +:+ s2) +:+ s3) = String a (s1 +:+ (s2 +:+ s3))).
  by f_equal.
Qed.

Lemma append_nil_r (s : string) : s +:+ "" = s.
Proof.
  induction s as [|a s IH]; [done|].
  change (String a (s +:+ "") = String a s). by f_equal.
Qed.

Lemma length_append (s1 s2 : string) :
  String.length (s1 +:+ s2) = (String.length s1 + String.length s2)%nat.
Proof.
  induction s1 as [|a s1 IH]; [done|].
  change (S (String.length (s1 +:+ s2))
          = S (String.length s1 + String.length s2)).
  by f_equal.
Qed.

Lemma append_ne_l (s1 s2 : string) : s2 ≠ "" → s1 +:+ s2 ≠ s1.
Proof.
  intros Hne Heq. apply Hne. apply (inj (String.app s1)).
  by rewrite append_nil_r.
Qed.

(** The campaign key does not tell the channel from the campaign: a recent
    record of channel [ch_x] and campaign [cs] has the key of an earlier
    record of channel [ch] and campaign [x_cs]. Its campaign status is then
    [Existing], although the two records differ in channel and in campaign. *)
Theorem campaign_key_collision P c df i j row h x :
  (i, row) ∈ recent P c df → (j, h) ∈ historical P c df →
  Channel row = Channel h +:+ "_" +:+ x →
  Campaign_Name_Short h = x +:+ "_" +:+ Campaign_Name_Short row →
  d_Campaign_Status (display_row (novelty P c df) row) = "Existing"
  ∧ Channel row ≠ Channel h
  ∧ Campaign_Name_Short row ≠ Campaign_Name_Short h.
Proof.
  intros Hrow Hh Hch Hcs. split_and!.
  - simpl. apply status_Existing. unfold novelty, new_sets. simpl.
    rewrite elem_of_difference. intros [_ Hnot]. apply Hnot.
    apply elem_of_key_set. exists (j, h). split; [done|]. simpl.
    unfold campaign_key. by rewrite Hch, Hcs, !append_assoc.
  - rewrite Hch. by apply append_ne_l.
  - rewrite Hcs. intros Heq.
    assert (String.length (Campaign_Name_Short row)
            = String.length (x +:+ "_" +:+ Campaign_Name_Short row)) as Hlen
      by (by rewrite <-Heq).
    rewrite !length_append in Hlen.
    change (String.length "_") with 1%nat in Hlen. lia.
Qed.

(** With no record on or before the cutoff every recent record gets three
    [New]: no row is dropped by the filter of line 99, and every recent
    record has its combination in the table. *)
Theorem first_report_everything_new P c df :
  historical P c df = [] →
  (∀ i d, (i, d) ∈ annotated P c df →
     display_statuses d = ("New", "New", "New"))
  ∧ retained P c df
    = (λ x, (x.1, rename_reorder x.2)) <$> annotated P c df
  ∧ (∀ i row, (i, row) ∈ recent P c df →
       ∃ j f, (j, f) ∈ output P c df ∧ combination f = key_columns row).
Proof.
  intros Hhist.
  assert (∀ i d, (i, d) ∈ annotated P c df →
            display_statuses d = ("New", "New", "New")) as Hall.
  { intros i d (row & Hrow & ->)%elem_of_display_df.
    unfold display_statuses. simpl.
    assert (∀ key : Row (option Timestamp) C → string,
              key row ∈ key_set key (recent P c df)
                        ∖ key_set key (historical P c df)) as Hkey.
    { intros key. rewrite Hhist. apply elem_of_difference. split.
      - by eapply recent_key_in_key_set.
      - unfold key_set. simpl. apply not_elem_of_empty. }
    by rewrite !(proj2 (status_New _ _)) by apply Hkey. }
  assert (retained P c df
          = (λ x, (x.1, rename_reorder x.2)) <$> annotated P c df) as Hret.
  { unfold retained, filtered_df. f_equal.
    change (display_df (novelty P c df) (recent P c df))
      with (annotated P c df).
    induction (annotated P c df) as [|[i d] l IH]; [done|].
    rewrite filter_cons_True.
    - f_equal. apply IH. intros i' d' Hin. apply (Hall i'). by right.
    - simpl. apply any_new_iff. left.
      specialize (Hall i d (list_elem_of_here _ _)).
      unfold display_statuses in Hall. by simplify_eq. }
  split_and!; [done..|].
  intros i row Hrow.
  destruct (drop_duplicates_from_complete ∅ (retained P c df)
              (i, rename_reorder (display_row (novelty P c df) row)))
    as ([j f] & Hf & Heq).
  - rewrite Hret. apply list_elem_of_fmap.
    exists (i, display_row (novelty P c df) row). split; [done|].
    apply elem_of_display_df. eauto.
  - apply not_elem_of_empty.
  - exists j, f. split; [done|]. simpl in Heq. by rewrite Heq.
Qed.

End StatusMeaning.

(** ** The cutoff, the mask of line 62 and the sizes of the partitions *)

Section Masks.
Context {C : Type}.
Implicit Types (P : DateParser) (c : date) (df : DataFrame C).

Lemma sublist_filter_impl {A} (Q1 Q2 : A → Prop)
    `{!∀ x, Decision (Q1 x), !∀ x, Decision (Q2 x)} (l : list A) :
  (∀ x, Q1 x → Q2 x) → filter Q1 l `sublist_of` filter Q2 l.
Proof.
  intros Himpl. induction l as [|x l IH]; [done|].
  rewrite !filter_cons. destruct (decide (Q1 x)) as [H1|H1].
  - rewrite decide_True by auto. by apply sublist_skip.
  - destruct (decide (Q2 x)); [by apply sublist_cons|done].
Qed.

Lemma date_to_datetime_mono c c' :
  c ≤ c' → date_to_datetime c ≤ date_to_datetime c'.
Proof. unfold date_to_datetime. pose proof ns_per_day_pos. nia. Qed.

Lemma historical_mono P c c' df :
  c ≤ c' → historical P c df `sublist_of` historical P c' df.
Proof.
  intros Hle%date_to_datetime_mono. unfold historical.
  apply sublist_filter_impl. intros [i r]. simpl.
  destruct (Date r) as [t|]; simpl; [|done].
  rewrite !bool_decide_spec. lia.
Qed.

Lemma recent_mono P c c' df :
  c ≤ c' → recent P c' df `sublist_of` recent P c df.
Proof.
  intros Hle%date_to_datetime_mono. unfold recent.
  apply sublist_filter_impl. intros [i r]. simpl.
  destruct (Date r) as [t|]; simpl; [|done].
  rewrite !bool_decide_spec. lia.
Qed.

(** A later cutoff moves records from the recent to the historical
    partition and never the other way: the historical partition of the
    earlier cutoff is a subsequence of that of the later one, and the
    recent partition of the later cutoff a subsequence of that of the
    earlier one. *)
Theorem later_cutoff_grows_history P c c' df :
  c ≤ c' →
  historical P c df `sublist_of` historical P c' df
  ∧ recent P c' df `sublist_of` recent P c df.
Proof. intros Hle. split; [by apply historical_mono|by apply recent_mono]. Qed.

(** The masks of lines 65 and 66 already leave out the rows whose date is
    [NaT]: taken on the frame before line 62 they give the same two
    partitions, the same novelty sets and the same table. *)
Theorem dropna_changes_no_partition P c df :
  historical P c df = before_df c (parsed P df)
  ∧ recent P c df = after_df c (parsed P df)
  ∧ novelty P c df
    = new_sets (before_df c (parsed P df)) (after_df c (parsed P df))
  ∧ output P c df = classify c (parsed P df).
Proof.
  unfold novelty, output, classify, historical, recent.
  by rewrite before_df_dropna, after_df_dropna.
Qed.

Lemma length_filter_split {A} (Q1 Q2 : A → Prop)
    `{!∀ x, Decision (Q1 x), !∀ x, Decision (Q2 x)} (l : list A) :
  (∀ x, x ∈ l → (Q1 x ∨ Q2 x) ∧ ¬ (Q1 x ∧ Q2 x)) →
  (length (filter Q1 l) + length (filter Q2 l))%nat = length l.
Proof.
  induction l as [|x l IH]; intros Hsplit; [done|].
  rewrite !filter_cons.
  destruct (Hsplit x (list_elem_of_here _ _)) as [Hor Hnand].
  specialize (IH (λ y Hy, Hsplit y (list_elem_of_further _ _ _ Hy))).
  destruct (decide (Q1 x)), (decide (Q2 x)); simpl; lia || tauto.
Qed.

Lemma parsed_Date P df : (λ ir, Date ir.2) <$> parsed P df = dates P df.
Proof.
  apply list_eq. intros i. rewrite list_lookup_fmap.
  destruct (parsed P df !! i) as [ir|] eqn:Hi; simpl.
  - apply parsed_lookup_Some in Hi as (r & d & _ & -> & ->). done.
  - symmetry. apply lookup_ge_None. apply lookup_ge_None in Hi.
    rewrite length_dates. rewrite parsed_dates, length_zip_with in Hi.
    unfold range_index in Hi. rewrite length_imap, length_dates in Hi. lia.
Qed.

(** Every record is counted once: the sizes of the two partitions and the
    number of dates that did not parse add up to the number of records. *)
Theorem partition_sizes P c df :
  (length (historical P c df) + length (recent P c df)
   + length (filter (λ d, d = None) (dates P df)))%nat
  = length (records df).
Proof.
  assert ((length (historical P c df) + length (recent P c df))%nat
          = length (dropna (parsed P df))) as ->.
  { unfold historical, recent. apply length_filter_split.
    intros [i r] [[t Ht] _]%list_elem_of_filter. simpl in *. rewrite Ht.
    simpl. rewrite !bool_decide_spec. lia. }
  rewrite <-(length_dates P df).
  rewrite <-(length_filter_split is_Some (λ d, d = None) (dates P df)).
  - f_equal. unfold dropna. rewrite <-parsed_Date.
    rewrite (filter_fmap_comm (λ ir, Date ir.2) is_Some
               (λ ir, is_Some (Date ir.2))) by done.
    by rewrite length_fmap.
  - intros [t|] _.
    + split; [left; by eexists|]. by intros [_ ?].
    + split; [by right|]. by intros [[??] _].
Qed.

End Masks.

(** ** The novelty sets as an operation on two frames *)

Section Operations.
Context {C : Type}.

Lemma key_set_subseteq {D} (key : Row D C → string) (fr fr' : Frame D C) :
  fr.*2 ⊆ fr'.*2 → key_set key fr ⊆ key_set key fr'.
Proof.
  intros Hsub k ([i r] & Hin & <-)%elem_of_key_set.
  assert (r ∈ fr'.*2) as ([i' r'] & -> & Hin')%list_elem_of_fmap.
  { apply Hsub, list_elem_of_fmap. by exists (i, r). }
  apply elem_of_key_set. by exists (i', r').
Qed.

(** The novelty sets read the two partitions as sets of rows: the order of
    the rows, their labels and their repetitions do not matter. *)
Theorem new_sets_of_sets {D} (before before' after after' : Frame D C) :
  (∀ r, r ∈ before.*2 ↔ r ∈ before'.*2) →
  (∀ r, r ∈ after.*2 ↔ r ∈ after'.*2) →
  new_sets before after = new_sets before' after'.
Proof.
  intros Hb Ha.
  assert (∀ key : Row D C → string,
            key_set key before = key_set key before'
            ∧ key_set key after = key_set key after') as Hkey.
  { intros key. split; apply (anti_symm (⊆)); apply key_set_subseteq;
      intros r; by (apply Hb || apply Ha). }
  unfold new_sets.
  destruct (Hkey campaign_key) as [-> ->].
  destruct (Hkey ad_set_key) as [-> ->].
  by destruct (Hkey ad_key) as [-> ->].
Qed.

(** More history never makes anything new: with more rows in the
    historical partition, and the same recent partition, each novelty set
    can only shrink, and a status that was [Existing] stays [Existing]. *)
Theorem more_history_less_novelty {D} (before before' after : Frame D C) :
  before.*2 ⊆ before'.*2 →
  new_campaigns (new_sets before' after) ⊆ new_campaigns (new_sets before after)
  ∧ new_adsets (new_sets before' after) ⊆ new_adsets (new_sets before after)
  ∧ new_ads (new_sets before' after) ⊆ new_ads (new_sets before after)
  ∧ ∀ r : Row D C,
      (d_Campaign_Status (display_row (new_sets before after) r) = "Existing" →
       d_Campaign_Status (display_row (new_sets before' after) r) = "Existing")
      ∧ (d_Ad_Set_Status (display_row (new_sets before after) r) = "Existing" →
         d_Ad_Set_Status (display_row (new_sets before' after) r) = "Existing")
      ∧ (d_Ad_Status (display_row (new_sets before after) r) = "Existing" →
         d_Ad_Status (display_row (new_sets before' after) r) = "Existing").
Proof.
  intros Hsub.
  assert (∀ key : Row D C → string,
            key_set key after ∖ key_set key before'
            ⊆ key_set key after ∖ key_set key before) as Hkey.
  { intros key k. rewrite !elem_of_difference. intros [Hk Hnot].
    split; [done|]. intros Hin. apply Hnot. by eapply key_set_subseteq. }
  split_and!; [apply Hkey..|].
  intros r. simpl. rewrite !status_Existing.
  split_and!; intros Hnot Hin; apply Hnot; by eapply Hkey.
Qed.

End Operations.

(** ** The worksheet *)

Section Sheet.
Context {C : Type}.
Implicit Types (ws : Worksheet C) (vals : list (Value C)).
Implicit Types (final_df : list (nat * FinalRow C)).

Lemma lookup_write row col (v : Value C) fmt ws r j :
  write row col v fmt ws !! (r, j) =
  if decide ((row, col) = (r, j)) then Some (mkCell v fmt) else ws !! (r, j).
Proof. unfold write. apply lookup_insert. Qed.

Lemma lookup_write_row row col vals ws r j :
  write_row row col vals ws !! (r, j) =
  if decide (r = row ∧ col ≤ j < col + length vals)%nat
  then (λ v, mkCell v None) <$> vals !! (j - col)%nat
  else ws !! (r, j).
Proof.
  revert col ws. induction vals as [|v vals IH]; intros col ws; simpl.
  - by rewrite decide_False by lia.
  - rewrite IH, lookup_write.
    destruct (decide (r = row ∧ S col ≤ j < S col + length vals)%nat)
      as [[-> ?]|Hn].
    + rewrite decide_True by lia.
      by replace (j - col)%nat with (S (j - S col)) by lia.
    + destruct (decide ((row, col) = (r, j))) as [[= <- <-]|Hne].
      * rewrite decide_True by lia. by rewrite Nat.sub_diag.
      * rewrite decide_False; [done|]. intros [-> ?].
        destruct (decide (j = col)) as [->|]; [done|]. apply Hn. lia.
Qed.

Lemma lookup_write_rows row (rows : list (list (Value C))) ws r j :
  write_rows row rows ws !! (r, j) =
  match (if decide (row ≤ r)%nat then rows !! (r - row)%nat else None)
          ≫= (.!! j) with
  | Some v => Some (mkCell v None)
  | None => ws !! (r, j)
  end.
Proof.
  revert row ws. induction rows as [|vals rows IH]; intros row ws; simpl.
  - by destruct (decide (row ≤ r)%nat).
  - rewrite IH, lookup_write_row.
    destruct (decide (S row ≤ r)%nat) as [Hle|Hlt].
    + rewrite (decide_True (P := (row ≤ r)%nat)) by lia.
      replace (r - row)%nat with (S (r - S row)) by lia. simpl.
      destruct (rows !! (r - S row)%nat ≫= (.!! j)); [done|].
      by rewrite decide_False by lia.
    + simpl. destruct (decide (row ≤ r)%nat) as [Hle|Hgt].
      * assert (r = row) as -> by lia. rewrite Nat.sub_diag. simpl.
        rewrite Nat.sub_0_r.
        destruct (vals !! j) as [v|] eqn:Hv.
        -- apply lookup_lt_Some in Hv as Hlen.
           rewrite decide_True by lia. done.
        -- apply lookup_ge_None in Hv as Hlen.
           by rewrite decide_False by lia.
      * simpl. by rewrite decide_False by lia.
Qed.

Lemma enumerate_cons {A} start (v : A) values :
  enumerate start (v :: values) = (start, v) :: enumerate (S start) values.
Proof.
  unfold enumerate. rewrite imap_cons. f_equal; [f_equal; lia|].
  apply imap_ext. intros i x _. simpl. f_equal. lia.
Qed.

Lemma lookup_highlight_from start col (values : list string) ws r j :
  foldl (λ ws rv,
           write rv.1 col (Text rv.2) (Some (format_to_apply rv.2)) ws)
        ws (enumerate start values) !! (r, j) =
  match (if decide (j = col ∧ start ≤ r)%nat then values !! (r - start)%nat
         else None) with
  | Some s => Some (mkCell (Text s) (Some (format_to_apply s)))
  | None => ws !! (r, j)
  end.
Proof.
  revert start ws. induction values as [|v values IH]; intros start ws.
  - simpl. by destruct (decide _).
  - rewrite enumerate_cons. simpl. rewrite IH, lookup_write.
    destruct (decide (j = col ∧ S start ≤ r)%nat) as [[-> Hle]|Hn].
    + rewrite (decide_True (P := (col = col ∧ start ≤ r)%nat)) by lia.
      replace (r - start)%nat with (S (r - S start)) by lia. simpl.
      destruct (values !! (r - S start)%nat); [done|].
      rewrite decide_False; [done|]. intros [= ]. lia.
    + destruct (decide ((start, col) = (r, j))) as [[= <- <-]|Hne].
      * rewrite decide_True by lia. by rewrite Nat.sub_diag.
      * destruct (decide (j = col ∧ start ≤ r)%nat) as [[-> ?]|]; [|done].
        assert (r = start) as -> by lia. done.
Qed.

Lemma lookup_highlight col (values : list string) ws r j :
  highlight col values ws !! (r, j) =
  match (if decide (j = col ∧ 1 ≤ r)%nat then values !! (r - 1)%nat
         else None) with
  | Some s => Some (mkCell (Text s) (Some (format_to_apply s)))
  | None => ws !! (r, j)
  end.
Proof. apply lookup_highlight_from. Qed.

Lemma lookup_to_excel final_df r j :
  to_excel final_df !! (r, j) =
  match r with
  | 0%nat => (λ col, mkCell (Text col) None) <$> final_columns !! j
  | S k => f ← final_df.*2 !! k; v ← cells f !! j; Some (mkCell v None)
  end.
Proof.
  unfold to_excel. rewrite lookup_write_rows, lookup_empty.
  rewrite decide_True by lia. rewrite Nat.sub_0_r.
  destruct r as [|k]; simpl.
  - do 9 (destruct j as [|j]; [done|]). done.
  - rewrite list_lookup_fmap. destruct (final_df.*2 !! k) as [f|]; [|done].
    simpl. by destruct (cells f !! j).
Qed.

Lemma export_sheets final_df :
  export final_df =
  Some {[ "New Entities" :=
            highlight 6 (f_Ad_Status <$> final_df.*2)
              (highlight 4 (f_Ad_Set_Status <$> final_df.*2)
                 (highlight 2 (f_Campaign_Status <$> final_df.*2)
                    (to_excel final_df))) ]}.
Proof.
  unfold export. rewrite lookup_singleton_eq. simpl.
  by rewrite insert_singleton_eq.
Qed.

Lemma exported_sheet_unfold final_df :
  exported_sheet final_df =
  highlight 6 (f_Ad_Status <$> final_df.*2)
    (highlight 4 (f_Ad_Set_Status <$> final_df.*2)
       (highlight 2 (f_Campaign_Status <$> final_df.*2)
          (to_excel final_df))).
Proof.
  unfold exported_sheet. rewrite export_sheets. simpl.
  by rewrite lookup_singleton_eq.
Qed.

Lemma status_column_index (j : nat) :
  j ∈ [2; 4; 6]%nat ↔ (j = 2 ∨ j = 4 ∨ j = 6)%nat.
Proof. rewrite !elem_of_cons, elem_of_nil. tauto. Qed.

(** Every cell of the exported sheet. *)
Lemma lookup_exported_sheet final_df r j :
  exported_sheet final_df !! (r, j) =
  match r with
  | 0%nat => (λ col, mkCell (Text col) None) <$> final_columns !! j
  | S k =>
      f ← final_df.*2 !! k; v ← cells f !! j;
      Some (mkCell v (if decide (j ∈ [2; 4; 6]%nat)
                      then Some (format_of_value v) else None))
  end.
Proof.
  rewrite exported_sheet_unfold, !lookup_highlight, lookup_to_excel.
  destruct r as [|k].
  - by rewrite !decide_False by lia.
  - simpl. rewrite Nat.sub_0_r, !list_lookup_fmap.
    destruct (final_df !! k) as [[i f]|]; simpl; [|by repeat case_decide].
    do 9 (destruct j as [|j];
          [repeat case_decide; rewrite ?status_column_index in *;
           first [done|lia]|]).
    repeat case_decide; rewrite ?status_column_index in *; first [done|lia].
Qed.

End Sheet.

(** ** What the download and the styled table hold *)

Section Download.
Context {C : Type}.
Implicit Types (final_df : list (nat * FinalRow C)).

Lemma length_cells (f : FinalRow C) : length (cells f) = 9%nat.
Proof. done. Qed.

Lemma lookup_final_df_rows final_df k :
  final_df.*2 !! k = snd <$> final_df !! k.
Proof. apply list_lookup_fmap. Qed.

Lemma format_to_apply_new (s : string) :
  format_to_apply s = new_format ↔ s = "New".
Proof.
  unfold format_to_apply. destruct (String.eqb_spec s "New"); by split.
Qed.

Lemma format_to_apply_existing (s : string) :
  format_to_apply s = existing_format ↔ s ≠ "New".
Proof.
  unfold format_to_apply. destruct (String.eqb_spec s "New"); by split.
Qed.

Lemma status_cells (f : FinalRow C) j v :
  cells f !! j = Some v → j ∈ [2; 4; 6]%nat →
  ∃ s, v = Text s ∧ s ∈ [f_Campaign_Status f; f_Ad_Set_Status f; f_Ad_Status f].
Proof.
  intros Hv [-> | [-> | ->]]%status_column_index; simplify_eq/=;
    eexists; (split; [done|]); repeat constructor.
Qed.

(** The columns 2, 4 and 6 of line 114 are the three status columns. *)
Lemma status_columns_at j col :
  final_columns !! j = Some col →
  (col ∈ status_columns ↔ j ∈ [2; 4; 6]%nat).
Proof.
  intros Hcol. rewrite status_column_index. unfold status_columns.
  rewrite !elem_of_cons, elem_of_nil.
  do 9 (destruct j as [|j];
        [simplify_eq/=; split; intros; destruct_or?; (done || lia || auto)|]).
  done.
Qed.

(** The loops of lines 154 to 162 format the cells of the columns 2, 4
    and 6 below the header, and no other cell; these are the columns
    [Campaign Status], [Ad Set Status] and [Ad Status] of line 114. A
    formatted cell has [new_format] when its value is the text [New] and
    [existing_format] otherwise. *)
Theorem export_highlights final_df r j cell :
  exported_sheet final_df !! (r, j) = Some cell →
  (is_Some (cell_format cell) ↔ (1 ≤ r)%nat ∧ j ∈ [2; 4; 6]%nat)
  ∧ (cell_format cell = Some new_format ↔
       ((1 ≤ r)%nat ∧ j ∈ [2; 4; 6]%nat) ∧ cell_value cell = Text "New")
  ∧ (cell_format cell = Some existing_format ↔
       ((1 ≤ r)%nat ∧ j ∈ [2; 4; 6]%nat) ∧ cell_value cell ≠ Text "New")
  ∧ (∀ col, final_columns !! j = Some col →
       (col ∈ status_columns ↔ j ∈ [2; 4; 6]%nat)).
Proof.
  rewrite lookup_exported_sheet. intros Hcell. split_and!.
  - destruct r as [|k].
    + destruct (final_columns !! j); simplify_eq/=.
      split; [by intros [??]|lia].
    + destruct (final_df.*2 !! k) as [f|]; simplify_eq/=.
      destruct (cells f !! j) as [v|]; simplify_eq/=.
      case_decide; split; try done; try (by intros [??]); try tauto.
      intros _. split; [lia|done].
  - destruct r as [|k].
    + destruct (final_columns !! j); simplify_eq/=.
      split; [done|lia].
    + destruct (final_df.*2 !! k) as [f|]; simplify_eq/=.
      destruct (cells f !! j) as [v|] eqn:Hv; simplify_eq/=.
      case_decide as Hj; [|split; [done|tauto]].
      destruct (status_cells f j v Hv Hj) as (s & -> & _). simpl.
      split.
      * intros [= ->%format_to_apply_new]. split; [split; [lia|done]|done].
      * intros [_ [= ->]]. done.
  - destruct r as [|k].
    + destruct (final_columns !! j); simplify_eq/=.
      split; [done|lia].
    + destruct (final_df.*2 !! k) as [f|]; simplify_eq/=.
      destruct (cells f !! j) as [v|] eqn:Hv; simplify_eq/=.
      case_decide as Hj; [|split; [done|tauto]].
      destruct (status_cells f j v Hv Hj) as (s & -> & _). simpl.
      split.
      * intros [= Hs%format_to_apply_existing].
        split; [split; [lia|done]|]. congruence.
      * intros [_ Hne]. f_equal. apply format_to_apply_existing. congruence.
  - apply status_columns_at.
Qed.

Lemma color_status_css (v : Value C) :
  color_status v = css_of_format (format_of_value v).
Proof.
  destruct v as [s|x]; simpl; [|done].
  unfold format_to_apply. by destruct (String.eqb s "New").
Qed.

(** The page and the download agree cell by cell: for the cell at column
    [j] of the row at position [k] of [final_df], the styled table and the
    sheet (one row lower, under the header) hold the same value, and the
    style of the cell on the page is the style sheet text of the format of
    the cell in the sheet, with the same two colours, or both have none. *)
Theorem display_matches_export final_df k i f j v :
  final_df !! k = Some (i, f) → cells f !! j = Some v →
  ∃ styles style cell,
    styled_df final_df !! k = Some (i, styles)
    ∧ styles !! j = Some (v, style)
    ∧ exported_sheet final_df !! (S k, j) = Some cell
    ∧ cell_value cell = v
    ∧ style = css_of_format <$> cell_format cell.
Proof.
  intros Hk Hv.
  destruct (lookup_lt_is_Some_2 final_columns j) as [col Hcol].
  { apply lookup_lt_Some in Hv. by rewrite length_cells in Hv. }
  exists (zip_with
            (λ col v, (v, if decide (col ∈ status_columns)
                          then Some (color_status v) else None))
            final_columns (cells f)),
    (if decide (col ∈ status_columns) then Some (color_status v) else None),
    (mkCell v (if decide (j ∈ [2; 4; 6]%nat) then Some (format_of_value v)
               else None)).
  split_and!.
  - unfold styled_df, applymap. by rewrite list_lookup_fmap, Hk.
  - apply lookup_zip_with_Some. by exists col, v.
  - rewrite lookup_exported_sheet, lookup_final_df_rows, Hk. simpl.
    by rewrite Hv.
  - done.
  - simpl. pose proof (status_columns_at j col Hcol).
    repeat case_decide; try tauto; simpl. by rewrite color_status_css.
Qed.

End Download.

Section Shown.
Context {C : Type}.
Implicit Types (P : DateParser) (c : date) (df : DataFrame C).


End Shown.

(** ** An upload with nothing after the cutoff *)

Section NothingRecent.
Context {C : Type}.
Implicit Types (P : DateParser) (c : date) (df : DataFrame C).

Lemma recent_nonempty P c df :
  recent P c df ≠ [] ↔
  ∃ i t, dates P df !! i = Some (Some t) ∧ date_to_datetime c < t.
Proof.
  split.
  - destruct (recent P c df) as [|[i row] rest] eqn:Hrec; [done|].
    intros _. assert (i ∈ (recent P c df).*1) as Hin
      by (rewrite Hrec; apply list_elem_of_here).
    apply recent_label in Hin as (t & ? & ?). eauto.
  - intros (i & t & Hd & Hlt) Hnil.
    assert (i ∈ (recent P c df).*1) as Hin by (apply recent_label; eauto).
    rewrite Hnil in Hin. by apply not_elem_of_nil in Hin.
Qed.


End NothingRecent.

(** ** Runs on the sample uploads *)

Section SampleRuns.
Import Sample.

Lemma sample_run :
  process Iso.parser cutoff upload =
  [st_warning date_warning_message; st_table table;
   st_download_button (table.*2)].
Proof. by vm_compute. Qed.

Lemma sample_dates :
  dates Iso.parser upload =
  [Some (date_to_datetime (Iso.ymd 2024 1 10));
   Some (date_to_datetime (Iso.ymd 2024 1 15));
   Some (date_to_datetime (Iso.ymd 2024 1 16));
   Some (date_to_datetime (Iso.ymd 2024 1 16));
   None;
   Some (date_to_datetime (Iso.ymd 2024 1 17));
   Some (date_to_datetime (Iso.ymd 2024 1 15) + 37800 * 1000000000)].
Proof. by vm_compute. Qed.

Lemma sample_partitions :
  (historical Iso.parser cutoff upload).*1 = [0; 1]%nat
  ∧ (recent Iso.parser cutoff upload).*1 = [2; 3; 5; 6]%nat.
Proof. by vm_compute. Qed.

Lemma sample_novelty :
  novelty Iso.parser cutoff upload =
  mkNewSets {["Facebook_Spring"; "Google_G1"]} ∅ ∅.
Proof. by vm_compute. Qed.

End SampleRuns.

(** ** A record stamped on the cutoff day *)

Section CutoffDayRun.
Import CutoffDay.

(** C3. The program compares timestamps where the claim, like the text of
    the page, speaks of dates. In [CutoffDay.upload] the second record is
    stamped 2024-01-15 10:30:00 and the cutoff is 2024-01-15. Read cell by
    cell or as a column, the cell parses to a timestamp of the cutoff day;
    whatever parser reads it so, line 66 puts the record in [after_df]
    and line 65 leaves it out of [before_df], against the boundary by date
    alone; and the run shows the record as new in all three statuses,
    where the same record stamped at 00:00 of that day is not shown. *)
Theorem C3_cutoff_day_record_is_recent :
  Date <$> records upload !! 1%nat = Some "2024-01-15 10:30:00"
  ∧ dates Iso.parser upload = dates Iso.uniform_parser upload
  ∧ dates Iso.parser upload !! 1%nat = Some (Some stamp)
  ∧ day_of stamp = cutoff
  ∧ time_of_day stamp = IsoClock.hms 10 30 0
  ∧ (∀ P : DateParser, dates P upload !! 1%nat = Some (Some stamp) →
       1%nat ∈ (recent P cutoff upload).*1
       ∧ (1%nat ∉ (historical P cutoff upload).*1)
       ∧ ¬ date_only_partition P cutoff upload)
  ∧ process Iso.parser cutoff upload
    = [st_table table; st_download_button (table.*2)]
  ∧ process Iso.uniform_parser cutoff upload
    = [st_table table; st_download_button (table.*2)]
  ∧ process Iso.parser cutoff upload_at_midnight
    = [st_table table_by_date; st_download_button (table_by_date.*2)].
Proof.
  split_and!;
    [by vm_compute|by vm_compute|by vm_compute|by vm_compute|by vm_compute|
    |by vm_compute|by vm_compute|by vm_compute].
  intros P Hd. by apply (recent_on_the_cutoff_day P cutoff upload 1 stamp).
Qed.

End CutoffDayRun.

(** ** The theorems at the sample uploads *)

Section Instances.
Local Abbreviation P := Iso.parser.
Local Abbreviation c := Sample.cutoff.
Local Abbreviation df := Sample.upload.
Local Abbreviation table := Sample.table.

Lemma C2_witness :
  st_table table ∈ process P c df
  ∧ ((∀ i f, (i, f) ∈ table →
        f_Campaign_Status f = "New" ∨ f_Ad_Set_Status f = "New"
        ∨ f_Ad_Status f = "New")
     ∧ st_download_button (table.*2) ∈ process P c df
     ∧ (∀ sheet f, st_download_button sheet ∈ process P c df → f ∈ sheet →
          f_Campaign_Status f = "New" ∨ f_Ad_Set_Status f = "New"
          ∨ f_Ad_Status f = "New")
     ∧ (∀ i row, (i, row) ∈ recent P c df →
          display_statuses (display_row (novelty P c df) row)
            = ("Existing", "Existing", "Existing") →
          i ∉ table.*1)).
Proof.
  refine (conj _ (C2_every_output_row_has_a_New P c df table _)); in_list.
Defined.


Lemma C4_witness :
  st_table table ∈ process P c df
  ∧ (NoDup ((λ x, combination x.2) <$> table)
     ∧ (∀ i f, (i, f) ∈ table →
          (i, f) ∈ retained P c df
          ∧ (∃ r, records df !! i = Some r ∧ combination f = key_columns r
                  ∧ f_Cost_USD f = Cost_USD r)
          ∧ (∀ j g, (j, g) ∈ retained P c df →
               combination g = combination f → (i ≤ j)%nat)
          ∧ (∀ j row, (j, row) ∈ recent P c df →
               key_columns row = combination f → (i ≤ j)%nat))
     ∧ (∀ j g, (j, g) ∈ retained P c df →
          ∃ i f, (i, f) ∈ table ∧ combination f = combination g)).
Proof.
  refine (conj _ (C4_one_row_per_combination P c df table _)); in_list.
Defined.

(** The first [Spring] record of the sample upload: its campaign is new
    while its ad set and its ad are not. *)
Lemma sample_mixed_statuses :
  (3%nat, mkDisplayRow "Facebook" "Paid Social" "Spring" "Aud1" "AdA" 40
                       "New" "Existing" "Existing")
  ∈ annotated P c df.
Proof. in_list. Qed.

Lemma C5_witness :
  (3%nat, set_Date (Some (date_to_datetime (Iso.ymd 2024 1 16)))
            (Sample.row "2024-01-16" "Facebook" "Spring" "Aud1" "AdA" 40))
    ∈ recent P c df
  ∧ ∃ d, (∀ d', (3%nat, d') ∈ annotated P c df ↔ d' = d)
      ∧ campaign_key
          (set_Date (Some (date_to_datetime (Iso.ymd 2024 1 16)))
             (Sample.row "2024-01-16" "Facebook" "Spring" "Aud1" "AdA" 40))
        = "Facebook" +:+ "_" +:+ "Spring"
      ∧ (d_Campaign_Status d = "New" ↔
           "Facebook_Spring" ∈ new_campaigns (novelty P c df))
      ∧ (d_Ad_Set_Status d = "Existing" ↔
           "Aud1" ∉ new_adsets (novelty P c df))
      ∧ (d_Ad_Status d = "Existing" ↔ "AdA" ∉ new_ads (novelty P c df)).
Proof.
  assert ((3%nat, set_Date (Some (date_to_datetime (Iso.ymd 2024 1 16)))
             (Sample.row "2024-01-16" "Facebook" "Spring" "Aud1" "AdA" 40))
          ∈ recent P c df) as Hrow by in_list.
  split; [exact Hrow|].
  destruct (C5_statuses_follow_membership P c df _ _ Hrow)
    as (d & Hd & Hck & _ & _ & Hc & _ & _ & Has & _ & Ha).
  exists d. split_and!; [exact Hd|exact Hck|exact Hc|exact Has|exact Ha].
Defined.

(** C6 as stated fails on an upload that lacks only [Date]: the error
    names [Channel], which the header has. *)
Lemma C6_counterexample :
  process P c Sample.upload_without_date = [st_error schema_error_message]
  ∧ missing_columns (columns Sample.upload_without_date) = ["Date"]
  ∧ mentions schema_error_message "Channel"
  ∧ ¬ lists_the_missing_columns schema_error_message
        (columns Sample.upload_without_date).
Proof.
  split_and!; [by vm_compute..|].
  intros Hclaim. destruct (Hclaim "Channel") as [Hmiss _]; [in_list|].
  revert Hmiss. apply (bool_decide_unpack _). by vm_compute.
Qed.

Lemma C6_witness :
  (∃ col, col ∈ required_columns
          ∧ col ∉ columns Sample.upload_without_date)
  ∧ (process P c Sample.upload_without_date = [st_error schema_error_message]
     ∧ (∀ e, e ∈ process P c Sample.upload_without_date →
          is_output e = false)
     ∧ (∀ col, col ∈ required_columns → mentions schema_error_message col)
     ∧ (∀ col, col ∈ missing_columns (columns Sample.upload_without_date) →
          mentions schema_error_message col)).
Proof.
  assert (∃ col, col ∈ required_columns
                 ∧ col ∉ columns Sample.upload_without_date) as Hmiss.
  { exists "Date". split; [in_list|].
    apply (bool_decide_unpack _). by vm_compute. }
  exact (conj Hmiss (C6_schema_error P c Sample.upload_without_date Hmiss)).
Defined.


(** Changing the text of the record whose date does not parse changes
    nothing on the page. *)
Lemma sample_bad_row_is_ignored :
  process P c Sample.upload_other_bad_row = process P c df.
Proof. by vm_compute. Qed.

Lemma C7_witness :
  has_required_columns (columns df) = true
  ∧ ((∀ i, dates P df !! i = Some None →
        (i ∉ (historical P c df).*1) ∧ (i ∉ (recent P c df).*1)
        ∧ ∀ table, st_table table ∈ process P c df → i ∉ table.*1)
     ∧ (None ∈ dates P df →
          warnings (process P c df) = [st_warning date_warning_message])
     ∧ (None ∉ dates P df → warnings (process P c df) = [])
     ∧ (∀ df' : DataFrame Z,
          columns df' = columns df →
          Date <$> records df' = Date <$> records df →
          (∀ i r r' t, dates P df !! i = Some (Some t) →
             records df !! i = Some r → records df' !! i = Some r' →
             r' = r) →
          novelty P c df' = novelty P c df
          ∧ process P c df' = process P c df)).
Proof.
  refine (conj _ (C7_unparseable_dates P c df _)); reflexivity.
Defined.

(** The two sample seeds hold the campaign keys of the records after the
    cutoff, line 74, in opposite orders. *)
Lemma sample_seeds_differ :
  py_set Seeds.forward ((λ ir, campaign_key ir.2) <$> recent P c df)
  = ["Facebook_SummerSale"; "Facebook_Spring"; "Google_G1"]
  ∧ py_set Seeds.backward ((λ ir, campaign_key ir.2) <$> recent P c df)
    = ["Google_G1"; "Facebook_Spring"; "Facebook_SummerSale"].
Proof. by vm_compute. Qed.



Lemma C9_witness :
  st_table table ∈ process P c df
  ∧ ((∀ i j row row', (i, row) ∈ recent P c df → (j, row') ∈ recent P c df →
        key_columns row = key_columns row' →
        display_statuses (display_row (novelty P c df) row)
        = display_statuses (display_row (novelty P c df) row'))
     ∧ (∀ j g, (j, g) ∈ retained P c df →
          ∃ i f, (i, f) ∈ table ∧ combination f = combination g
                 ∧ statuses f = statuses g)).
Proof.
  refine (conj _ (C9_duplicates_share_statuses P c df table _)); in_list.
Defined.

Lemma C10_witness :
  upload_but_cost df = upload_but_cost Sample.upload_other_costs
  ∧ (event_but_cost <$> process P c df
     = event_but_cost <$> process P c Sample.upload_other_costs
     ∧ novelty P c df = novelty P c Sample.upload_other_costs
     ∧ (λ x, (x.1, final_but_cost x.2)) <$> output P c df
       = (λ x, (x.1, final_but_cost x.2))
           <$> output P c Sample.upload_other_costs).
Proof.
  refine (conj _ (C10_cost_independence P c df Sample.upload_other_costs _));
    reflexivity.
Defined.

End Instances.

(** ** The further properties at the sample uploads *)

Section MoreInstances.
Local Abbreviation P := Iso.parser.
Local Abbreviation c := Sample.cutoff.
Local Abbreviation df := Sample.upload.
Local Abbreviation table := Sample.table.
Local Abbreviation spring :=
  (mkFinalRow "Paid Social" "Facebook" "New" "Spring" "Existing" "Aud1"
              "Existing" "AdA" 40).

Lemma table_rows_are_upload_records_witness :
  st_table table ∈ process P c df
  ∧ (3%nat, spring) ∈ table
  ∧ ∃ r t, records df !! 3%nat = Some r
      ∧ dates P df !! 3%nat = Some (Some t) ∧ date_to_datetime c < t
      ∧ f_Media_Source spring = Media_Source r
      ∧ f_Channel spring = Channel r
      ∧ f_Campaign_Short spring = Campaign_Name_Short r
      ∧ f_Ad_Set spring = Ad_Set r
      ∧ f_Ad spring = Ad_Name_Short r
      ∧ f_Cost_USD spring = Cost_USD r.
Proof.
  refine (conj _ (conj _
    (table_rows_are_upload_records P c df table 3%nat spring _ _))); in_list.
Defined.

Lemma table_in_upload_order_witness :
  st_table table ∈ process P c df
  ∧ (table.*1 `sublist_of` (recent P c df).*1
     ∧ (recent P c df).*1 `sublist_of` seq 0 (length (records df))
     ∧ StronglySorted lt (table.*1)
     ∧ (length table ≤ length (recent P c df))%nat
     ∧ (length (recent P c df) ≤ length (records df))%nat).
Proof.
  refine (conj _ (table_in_upload_order P c df table _)); in_list.
Defined.

Lemma table_status_meaning_witness :
  st_table table ∈ process P c df
  ∧ (3%nat, spring) ∈ table
  ∧ ((f_Campaign_Status spring = "New" ↔
        ¬ seen_before P c df campaign_key
            (f_Channel spring +:+ "_" +:+ f_Campaign_Short spring))
     ∧ (f_Campaign_Status spring = "Existing" ↔
          seen_before P c df campaign_key
            (f_Channel spring +:+ "_" +:+ f_Campaign_Short spring))
     ∧ (f_Ad_Set_Status spring = "New" ↔
          ¬ seen_before P c df ad_set_key (f_Ad_Set spring))
     ∧ (f_Ad_Set_Status spring = "Existing" ↔
          seen_before P c df ad_set_key (f_Ad_Set spring))
     ∧ (f_Ad_Status spring = "New" ↔
          ¬ seen_before P c df ad_key (f_Ad spring))
     ∧ (f_Ad_Status spring = "Existing" ↔
          seen_before P c df ad_key (f_Ad spring))).
Proof.
  refine (conj _ (conj _
    (table_status_meaning P c df table 3%nat spring _ _))); in_list.
Defined.

Lemma campaign_key_collision_witness :
  (1%nat, set_Date (Some (date_to_datetime (Iso.ymd 2024 1 16)))
            (Sample.row "2024-01-16" "Meta_Ads" "Promo" "Aud7" "AdQ" 40))
    ∈ recent P c MoreSamples.colliding_upload
  ∧ (0%nat, set_Date (Some (date_to_datetime (Iso.ymd 2024 1 10)))
              (Sample.row "2024-01-10" "Meta" "Ads_Promo" "Aud1" "AdA" 10))
      ∈ historical P c MoreSamples.colliding_upload
  ∧ "Meta_Ads" = "Meta" +:+ "_" +:+ "Ads"
  ∧ "Ads_Promo" = "Ads" +:+ "_" +:+ "Promo"
  ∧ (d_Campaign_Status
       (display_row (novelty P c MoreSamples.colliding_upload)
          (set_Date (Some (date_to_datetime (Iso.ymd 2024 1 16)))
             (Sample.row "2024-01-16" "Meta_Ads" "Promo" "Aud7" "AdQ" 40)))
     = "Existing"
     ∧ "Meta_Ads" ≠ "Meta"
     ∧ "Promo" ≠ "Ads_Promo").
Proof.
  refine (conj _ (conj _ (conj _ (conj _
    (campaign_key_collision P c MoreSamples.colliding_upload 1%nat 0%nat
       (set_Date (Some (date_to_datetime (Iso.ymd 2024 1 16)))
          (Sample.row "2024-01-16" "Meta_Ads" "Promo" "Aud7" "AdQ" 40))
       (set_Date (Some (date_to_datetime (Iso.ymd 2024 1 10)))
          (Sample.row "2024-01-10" "Meta" "Ads_Promo" "Aud1" "AdA" 10))
       "Ads" _ _ _ _)))));
    first [reflexivity | in_list].
Defined.

Lemma first_report_everything_new_witness :
  historical P MoreSamples.early_cutoff Sample.clean_upload = []
  ∧ ((∀ i d, (i, d) ∈ annotated P MoreSamples.early_cutoff Sample.clean_upload →
        display_statuses d = ("New", "New", "New"))
     ∧ retained P MoreSamples.early_cutoff Sample.clean_upload
       = (λ x, (x.1, rename_reorder x.2))
           <$> annotated P MoreSamples.early_cutoff Sample.clean_upload
     ∧ (∀ i row,
          (i, row) ∈ recent P MoreSamples.early_cutoff Sample.clean_upload →
          ∃ j f, (j, f) ∈ output P MoreSamples.early_cutoff Sample.clean_upload
                 ∧ combination f = key_columns row)).
Proof.
  refine (conj _ (first_report_everything_new P MoreSamples.early_cutoff
                    Sample.clean_upload _)); reflexivity.
Defined.

Lemma later_cutoff_grows_history_witness :
  c ≤ MoreSamples.later_cutoff
  ∧ (historical P c df `sublist_of` historical P MoreSamples.later_cutoff df
     ∧ recent P MoreSamples.later_cutoff df `sublist_of` recent P c df).
Proof.
  refine (conj _ (later_cutoff_grows_history P c MoreSamples.later_cutoff df _));
    by vm_compute.
Defined.

Lemma new_sets_of_sets_witness :
  (∀ r, r ∈ (historical P c df).*2
        ↔ r ∈ (historical P c df ++ historical P c df).*2)
  ∧ (∀ r, r ∈ (recent P c df).*2 ↔ r ∈ (reverse (recent P c df)).*2)
  ∧ new_sets (historical P c df) (recent P c df)
    = new_sets (historical P c df ++ historical P c df)
               (reverse (recent P c df)).
Proof.
  assert (∀ r, r ∈ (historical P c df).*2
               ↔ r ∈ (historical P c df ++ historical P c df).*2) as Hb.
  { intros r. rewrite fmap_app, elem_of_app. tauto. }
  assert (∀ r, r ∈ (recent P c df).*2 ↔ r ∈ (reverse (recent P c df)).*2)
    as Ha.
  { intros r. by rewrite fmap_reverse, elem_of_reverse. }
  exact (conj Hb (conj Ha (new_sets_of_sets _ _ _ _ Hb Ha))).
Defined.

Lemma more_history_less_novelty_witness :
  (historical P c df).*2 ⊆ (historical P MoreSamples.later_cutoff df).*2
  ∧ (new_campaigns (new_sets (historical P MoreSamples.later_cutoff df)
                             (recent P c df))
       ⊆ new_campaigns (new_sets (historical P c df) (recent P c df))
     ∧ new_adsets (new_sets (historical P MoreSamples.later_cutoff df)
                            (recent P c df))
         ⊆ new_adsets (new_sets (historical P c df) (recent P c df))
     ∧ new_ads (new_sets (historical P MoreSamples.later_cutoff df)
                         (recent P c df))
         ⊆ new_ads (new_sets (historical P c df) (recent P c df))
     ∧ ∀ r : Row (option Timestamp) Z,
         (d_Campaign_Status
            (display_row (new_sets (historical P c df) (recent P c df)) r)
          = "Existing" →
          d_Campaign_Status
            (display_row (new_sets (historical P MoreSamples.later_cutoff df)
                                   (recent P c df)) r)
          = "Existing")
         ∧ (d_Ad_Set_Status
              (display_row (new_sets (historical P c df) (recent P c df)) r)
            = "Existing" →
            d_Ad_Set_Status
              (display_row (new_sets (historical P MoreSamples.later_cutoff df)
                                     (recent P c df)) r)
            = "Existing")
         ∧ (d_Ad_Status
              (display_row (new_sets (historical P c df) (recent P c df)) r)
            = "Existing" →
            d_Ad_Status
              (display_row (new_sets (historical P MoreSamples.later_cutoff df)
                                     (recent P c df)) r)
            = "Existing")).
Proof.
  assert ((historical P c df).*2
          ⊆ (historical P MoreSamples.later_cutoff df).*2) as Hsub.
  { apply sublist_subseteq, fmap_sublist, historical_mono. by vm_compute. }
  exact (conj Hsub (more_history_less_novelty _ _ _ Hsub)).
Defined.

Lemma export_highlights_witness :
  exported_sheet table !! (1%nat, 2%nat)
    = Some (mkCell (Text "New") (Some new_format))
  ∧ ((is_Some (cell_format (mkCell (@Text Z "New") (Some new_format))) ↔
        (1 ≤ 1)%nat ∧ 2%nat ∈ [2; 4; 6]%nat)
     ∧ (cell_format (mkCell (@Text Z "New") (Some new_format))
          = Some new_format ↔
          ((1 ≤ 1)%nat ∧ 2%nat ∈ [2; 4; 6]%nat)
          ∧ cell_value (mkCell (@Text Z "New") (Some new_format)) = Text "New")
     ∧ (cell_format (mkCell (@Text Z "New") (Some new_format))
          = Some existing_format ↔
          ((1 ≤ 1)%nat ∧ 2%nat ∈ [2; 4; 6]%nat)
          ∧ cell_value (mkCell (@Text Z "New") (Some new_format)) ≠ Text "New")
     ∧ (∀ col, final_columns !! 2%nat = Some col →
          (col ∈ status_columns ↔ 2%nat ∈ [2; 4; 6]%nat))).
Proof.
  refine (conj _ (export_highlights table 1%nat 2%nat _ _)); by vm_compute.
Defined.

Lemma display_matches_export_witness :
  table !! 0%nat = Some (3%nat, spring)
  ∧ cells spring !! 2%nat = Some (Text "New")
  ∧ ∃ styles style cell,
      styled_df table !! 0%nat = Some (3%nat, styles)
      ∧ styles !! 2%nat = Some (Text "New", style)
      ∧ exported_sheet table !! (1%nat, 2%nat) = Some cell
      ∧ cell_value cell = Text "New"
      ∧ style = css_of_format <$> cell_format cell.
Proof.
  refine (conj _ (conj _
    (display_matches_export table 0%nat 3%nat spring 2%nat (Text "New") _ _)));
    reflexivity.
Defined.



(** The run of that upload: the error of line 175 and nothing else. *)
Lemma sample_run_nothing_recent :
  process P MoreSamples.later_cutoff Sample.clean_upload
  = [st_error (processing_error_message empty_apply_error)]
  ∧ processing_error_message empty_apply_error
    = "An error occurred while processing the file: Cannot set a DataFrame"
        +:+ " with multiple columns to the single column Campaign Status".
Proof. by vm_compute. Qed.

End MoreInstances.
